(** * Launch and fee-distribution orchestrator (src/api/bags.ts)

    A shallow embedding of the [BagsProtocol] class: the launch sequence
    ([launchToken], [getOrCreateConfig], [createTokenInfo],
    [setupFeeSharing]), the transaction submitter ([sendTransaction]) and
    the claim loop ([claimFees]).

    The protocol SDK, the RPC connection and [fetch] are collaborators of
    the class.  They are modelled as an environment of oracles that may
    answer differently depending on everything requested so far; each
    request the class issues is appended to a trace, so that "which calls
    were made, in which order, with which arguments" is a statement about
    a list.  Asynchronous methods are run in program order: the source
    awaits every promise at the point where it creates it. *)

From Stdlib Require Import List String Ascii ZArith QArith Bool Lia.
Import ListNotations.
Local Open Scope string_scope.
Local Open Scope list_scope.

(* ================================================================== *)
(** ** JavaScript values used by the class *)
(* ================================================================== *)

Module JS.

(** A JavaScript number.  Finite values are kept as exact rationals:
    the class only selects between numbers and scales one of them by
    [LAMPORTS_PER_SOL], and neither the claims nor the proofs depend
    on rounding.  Both zeros are the rational zero. *)
Inductive number : Type :=
| Fin (q : Q)
| PosInf
| NegInf
| NaN.

Definition num (z : Z) : number := Fin (inject_Z z).

(** [ToBoolean] of the language: the test performed by [if (x)],
    [x ? a : b] and [x || y]. *)
Class ToBoolean (A : Type) := toBoolean : A -> bool.

(** Zero and NaN are falsy, every other number is truthy. *)
#[export] Instance number_ToBoolean : ToBoolean number :=
  fun n => match n with
           | Fin q => negb (Qeq_bool q 0)
           | PosInf | NegInf => true
           | NaN => false
           end.

(** The empty string is falsy. *)
#[export] Instance string_ToBoolean : ToBoolean string :=
  fun s => negb (String.eqb s "").

(** [undefined] and [null] are falsy; a present value is tested. *)
#[export] Instance option_ToBoolean {A} `{ToBoolean A} : ToBoolean (option A) :=
  fun o => match o with
           | Some v => toBoolean v
           | None => false
           end.

(** [a || b] where [a] may be [undefined]: the left operand when it is
    truthy, the right operand otherwise. *)
Definition or_else {A} `{ToBoolean A} (a : option A) (b : A) : A :=
  match a with
  | Some v => if toBoolean v then v else b
  | None => b
  end.

(** Strict equality [===] on numbers: NaN differs from itself. *)
Definition strict_eq (a b : number) : bool :=
  match a, b with
  | Fin p, Fin q => Qeq_bool p q
  | PosInf, PosInf => true
  | NegInf, NegInf => true
  | _, _ => false
  end.

Definition add (a b : number) : number :=
  match a, b with
  | NaN, _ | _, NaN => NaN
  | PosInf, NegInf | NegInf, PosInf => NaN
  | PosInf, _ | _, PosInf => PosInf
  | NegInf, _ | _, NegInf => NegInf
  | Fin p, Fin q => Fin (p + q)
  end.

Definition neg (a : number) : number :=
  match a with
  | Fin q => Fin (- q)
  | PosInf => NegInf
  | NegInf => PosInf
  | NaN => NaN
  end.

Definition sub (a b : number) : number := add a (neg b).

Definition sign_of (q : Q) : comparison := (Qnum q ?= 0)%Z.

Definition scale_inf (positive : bool) (q : Q) : number :=
  match sign_of q with
  | Eq => NaN
  | Gt => if positive then PosInf else NegInf
  | Lt => if positive then NegInf else PosInf
  end.

Definition mul (a b : number) : number :=
  match a, b with
  | NaN, _ | _, NaN => NaN
  | Fin p, Fin q => Fin (p * q)
  | PosInf, Fin q | Fin q, PosInf => scale_inf true q
  | NegInf, Fin q | Fin q, NegInf => scale_inf false q
  | PosInf, PosInf | NegInf, NegInf => PosInf
  | PosInf, NegInf | NegInf, PosInf => NegInf
  end.

(** Strings are sequences of bytes (the UTF-8 form of the text).  A string
    is ASCII when every byte is below 128. *)
Fixpoint is_ascii (s : string) : bool :=
  match s with
  | EmptyString => true
  | String c rest => andb (Nat.ltb (nat_of_ascii c) 128) (is_ascii rest)
  end.

(** What [String.prototype.toUpperCase] does to ASCII text: a-z become
    A-Z, every other character is kept.  On other text the method applies
    the Unicode case mapping, which is a parameter of the model (the
    field [toUpperCase] of the environment below). *)
Definition upper_ascii (c : ascii) : ascii :=
  let n := nat_of_ascii c in
  if andb (Nat.leb 97 n) (Nat.leb n 122) then ascii_of_nat (n - 32) else c.

Fixpoint ascii_toUpperCase (s : string) : string :=
  match s with
  | EmptyString => EmptyString
  | String c rest => String (upper_ascii c) (ascii_toUpperCase rest)
  end.

Fixpoint drop (n : nat) (s : string) : string :=
  match n, s with
  | O, _ => s
  | S _, EmptyString => EmptyString
  | S k, String _ rest => drop k rest
  end.

(** [s.replace(pattern, replacement)] with a string pattern: only the
    first occurrence of [pattern] is replaced.  (The [$]-escapes of the
    replacement text are not modelled; the class passes the empty
    replacement.) *)
Fixpoint replace (pattern replacement s : string) : string :=
  if String.prefix pattern s
  then replacement ++ drop (String.length pattern) s
  else match s with
       | EmptyString => EmptyString
       | String c rest => String c (replace pattern replacement rest)
       end.

End JS.
Export JS.

(* ================================================================== *)
(** ** Data exchanged with the collaborators *)
(* ================================================================== *)

Definition Buffer := list Byte.byte.

(** A public key, identified by its base-58 text.  The validation done
    by the key constructor is outside the model: mints and handles that
    reach it come from the protocol. *)
Record PublicKey : Type := new_PublicKey { toBase58 : string }.

(** The signing key pair; only its public half is observable. *)
Record Keypair : Type := { publicKey : PublicKey }.

(** A versioned transaction: an opaque message and the keys that have
    signed it so far. *)
Record VersionedTransaction : Type := {
  message : string;
  signatures : list PublicKey
}.

(** [tx.sign(signers)] adds the signers' signatures to the transaction. *)
Definition sign (tx : VersionedTransaction) (signers : list Keypair)
  : VersionedTransaction :=
  {| message := message tx;
     signatures := signatures tx ++ map publicKey signers |}.

(** Objects are always truthy. *)
#[export] Instance PublicKey_ToBoolean : ToBoolean PublicKey := fun _ => true.
#[export] Instance VersionedTransaction_ToBoolean : ToBoolean VersionedTransaction :=
  fun _ => true.
#[export] Instance Buffer_ToBoolean : ToBoolean Buffer := fun _ => true.

Record TokenLaunchParams : Type := {
  name : string;
  symbol : string;
  description : string;
  imageUrl : option string;
  imageFile : option Buffer;
  twitter : option string;
  telegram : option string;
  website : option string;
  initialBuyAmountSol : option number;
  feeShareTwitter : option string;
  creatorFeeBps : option number;
  feeShareBps : option number
}.

Record LaunchResult : Type := {
  lr_tokenMint : string;
  lr_signature : string;
  lr_metadataUrl : string;
  lr_bagsUrl : string;
  lr_configKey : option string;
  lr_feeShareWallet : option string
}.

(** Answer of [sdk.config.getOrCreateConfig] and of
    [sdk.config.createFeeShareConfig]: a configuration handle and, when
    the configuration still has to be created on chain, the transaction
    that creates it. *)
Record ConfigResponse : Type := {
  configKey : PublicKey;
  transaction : option VersionedTransaction
}.

Record Blob : Type := {
  blob_parts : Buffer;
  blob_type : string
}.

Record TokenInfoRequest : Type := {
  ti_image : Blob;
  ti_name : string;
  ti_symbol : string;
  ti_description : string;
  ti_telegram : option string;
  ti_twitter : option string;
  ti_website : option string
}.

Record TokenInfo : Type := {
  tokenMint : string;
  tokenMetadata : string
}.

Record FeeShareUser : Type := {
  wallet : PublicKey;
  bps : number
}.

Record FeeShareRequest : Type := {
  users : list FeeShareUser;
  payer : PublicKey;
  fs_baseMint : PublicKey;
  quoteMint : PublicKey
}.

Record LaunchRequest : Type := {
  metadataUrl : string;
  lq_tokenMint : PublicKey;
  launchWallet : PublicKey;
  initialBuyLamports : number;
  lq_configKey : PublicKey
}.

Record SendOptions : Type := {
  skipPreflight : bool;
  maxRetries : Z
}.

Record BlockhashInfo : Type := {
  blockhash : string;
  lastValidBlockHeight : Z
}.

Record ConfirmStrategy : Type := {
  cs_blockhash : string;
  cs_lastValidBlockHeight : Z;
  cs_signature : string
}.

(** A JSON value, as found in the error field of a confirmation. *)
#[warnings="-register-all"]
Inductive json : Type :=
| JNull
| JNumber (z : Z)
| JString (s : string)
| JArray (items : list json)
| JObject (fields : list (string * json)).

(** The [err] field of a confirmation is [null], a string (a unit
    variant of the runtime's error enumeration) or an object (a variant
    with data, such as an instruction error). *)
Inductive TransactionError : Type :=
| ErrString (s : string)
| ErrObject (fields : list (string * json)).

#[export] Instance TransactionError_ToBoolean : ToBoolean TransactionError :=
  fun e => match e with
           | ErrString s => toBoolean s
           | ErrObject _ => true
           end.

(** Conversion to string done by a template literal: a string is itself,
    a plain object has the default rendering. *)
Definition TransactionError_toString (e : TransactionError) : string :=
  match e with
  | ErrString s => s
  | ErrObject _ => "[object Object]"
  end.

Record Confirmation : Type := { err : option TransactionError }.

Record ClaimablePosition : Type := {
  baseMint : string;
  virtualPoolClaimableAmount : option Z;
  dammPoolClaimableAmount : option Z
}.

(** What a thrown value looks like: an error object with its name and
    message. *)
Record exn : Type := { exn_name : string; exn_message : string }.

(** [new Error(message)]. *)
Definition Error (msg : string) : exn :=
  {| exn_name := "Error"; exn_message := msg |}.

Inductive result (A : Type) : Type :=
| Ok (a : A)
| Throw (e : exn).
Arguments Ok {A} a.
Arguments Throw {A} e.

(** Answer of [fetch]: a status and a body; reading the body can itself
    fail. *)
Record Response : Type := {
  status : Z;
  blob : result Blob
}.

(** Requests issued to the collaborators, in the order of issue. *)
Inductive event : Type :=
| Call_getOrCreateConfig (w : PublicKey)
| Call_fetch (url : string)
| Call_createTokenInfoAndMetadata (req : TokenInfoRequest)
| Call_getLaunchWalletForTwitterUsername (handle : string)
| Call_createFeeShareConfig (req : FeeShareRequest)
| Call_createLaunchTransaction (req : LaunchRequest)
| Call_getLatestBlockhash
| Call_sendTransaction (tx : VersionedTransaction) (opts : SendOptions)
| Call_confirmTransaction (strategy : ConfirmStrategy) (commitment : string)
| Call_getAllClaimablePositions (w : PublicKey)
| Call_getClaimTransaction (w : PublicKey) (position : ClaimablePosition).

Definition trace := list event.

(** The collaborators.  Every oracle sees the requests issued before the
    current one, so an answer may depend on earlier calls (a
    configuration created by a previous submission, for instance).  The
    last field is the language runtime's [String.prototype.toUpperCase],
    whose Unicode case tables are not reproduced here. *)
Record Env : Type := {
  sdk_config_getOrCreateConfig : trace -> PublicKey -> result ConfigResponse;
  sdk_config_createFeeShareConfig : trace -> FeeShareRequest -> result ConfigResponse;
  sdk_tokenLaunch_createTokenInfoAndMetadata :
    trace -> TokenInfoRequest -> result TokenInfo;
  sdk_tokenLaunch_createLaunchTransaction :
    trace -> LaunchRequest -> result VersionedTransaction;
  sdk_state_getLaunchWalletForTwitterUsername :
    trace -> string -> result (option PublicKey);
  sdk_fee_getAllClaimablePositions :
    trace -> PublicKey -> result (list ClaimablePosition);
  sdk_fee_getClaimTransaction :
    trace -> PublicKey -> ClaimablePosition -> result (list VersionedTransaction);
  connection_getLatestBlockhash : trace -> result BlockhashInfo;
  connection_sendTransaction :
    trace -> VersionedTransaction -> SendOptions -> result string;
  connection_confirmTransaction :
    trace -> ConfirmStrategy -> string -> result Confirmation;
  fetch : trace -> string -> result Response;
  toUpperCase : string -> string
}.

(** The runtime's upper-casing agrees with [ascii_toUpperCase] on ASCII
    text, as the language specifies. *)
Definition ascii_faithful (env : Env) : Prop :=
  forall s, is_ascii s = true -> toUpperCase env s = ascii_toUpperCase s.

(* ================================================================== *)
(** ** Computations: a result or a thrown error, and the trace *)
(* ================================================================== *)

Definition M (A : Type) : Type := trace -> result A * trace.

Definition ret {A} (a : A) : M A := fun t => (Ok a, t).

Definition throw {A} (e : exn) : M A := fun t => (Throw e, t).

Definition bind {A B} (m : M A) (k : A -> M B) : M B :=
  fun t => match m t with
           | (Ok a, t') => k a t'
           | (Throw e, t') => (Throw e, t')
           end.

(** A request: the oracle answers from the history, the request is
    recorded whether it succeeds or not. *)
Definition call {A} (ev : event) (oracle : trace -> result A) : M A :=
  fun t => (oracle t, t ++ [ev]).

(** A step that can fail without any request (reading a body already
    received). *)
Definition lift {A} (r : result A) : M A := fun t => (r, t).

Declare Scope m_scope.
Delimit Scope m_scope with m.
Notation "x <- c1 ;; c2" := (bind c1 (fun x => c2))
  (at level 100, c1 at next level, right associativity) : m_scope.
Notation "c1 ;;; c2" := (bind c1 (fun _ => c2))
  (at level 100, right associativity) : m_scope.
Local Open Scope m_scope.

Definition LAMPORTS_PER_SOL : number := num 1000000000.

Definition defaultImage : string :=
  "https://img.freepik.com/premium-vector/white-abstract-vactor-background-design_665257-153.jpg".

Definition wSOL : string := "So11111111111111111111111111111111111111112".

(** The argument object of [sdk.tokenLaunch.createTokenInfoAndMetadata]
    built at lines 161-169. *)
Definition tokenInfoRequest (env : Env) (params : TokenLaunchParams)
           (imageBlob : Blob) : TokenInfoRequest :=
  {| ti_image := imageBlob;
     ti_name := params.(name);
     ti_symbol := replace "$" "" (toUpperCase env params.(symbol));
     ti_description := params.(description);
     ti_telegram := params.(telegram);
     ti_twitter := params.(twitter);
     ti_website := params.(website) |}.

(* ================================================================== *)
(** ** The class *)
(* ================================================================== *)

Section BagsProtocol.

Variable env : Env.
Variable keypair : Keypair.

(** [sendTransaction(transaction)] (lines 230-249). *)
Definition sendTransaction (transaction : VersionedTransaction) : M string :=
  latest <- call Call_getLatestBlockhash (connection_getLatestBlockhash env) ;;
  let opts := {| skipPreflight := true; maxRetries := 3 |} in
  signature <- call (Call_sendTransaction transaction opts)
                    (fun t => connection_sendTransaction env t transaction opts) ;;
  let strategy := {| cs_blockhash := latest.(blockhash);
                     cs_lastValidBlockHeight := latest.(lastValidBlockHeight);
                     cs_signature := signature |} in
  confirmation <- call (Call_confirmTransaction strategy "processed")
                       (fun t => connection_confirmTransaction env t strategy "processed") ;;
  match confirmation.(err) with
  | Some e =>
      if toBoolean e
      then throw (Error ("Transaction failed: " ++ TransactionError_toString e))
      else ret signature
  | None => ret signature
  end.

(** [getOrCreateConfig()] (lines 119-137).  Signing mutates the
    transaction held by the response, which is the object returned. *)
Definition getOrCreateConfig : M ConfigResponse :=
  configResponse <- call (Call_getOrCreateConfig keypair.(publicKey))
                         (fun t => sdk_config_getOrCreateConfig env t keypair.(publicKey)) ;;
  match configResponse.(transaction) with
  | Some tx =>
      let signed := sign tx [keypair] in
      _ <- sendTransaction signed ;;
      ret {| configKey := configResponse.(configKey); transaction := Some signed |}
  | None => ret configResponse
  end.

(** The image part of [createTokenInfo] (lines 145-159). *)
Definition fetchBlob (url : string) : M Blob :=
  response <- call (Call_fetch url) (fun t => fetch env t url) ;;
  lift response.(blob).

Definition resolveImage (params : TokenLaunchParams) : M Blob :=
  let otherwise :=
    match params.(imageFile) with
    | Some file =>
        if toBoolean file
        then ret {| blob_parts := file; blob_type := "image/png" |}
        else fetchBlob defaultImage
    | None => fetchBlob defaultImage
    end in
  match params.(imageUrl) with
  | Some url => if toBoolean url then fetchBlob url else otherwise
  | None => otherwise
  end.

(** [createTokenInfo(params)] (lines 142-173). *)
Definition createTokenInfo (params : TokenLaunchParams) : M TokenInfo :=
  imageBlob <- resolveImage params ;;
  let req := tokenInfoRequest env params imageBlob in
  call (Call_createTokenInfoAndMetadata req)
       (fun t => sdk_tokenLaunch_createTokenInfoAndMetadata env t req).

(** [setupFeeSharing(twitterHandle, creatorFeeBps, feeShareBps,
    tokenMint)] (lines 178-225). *)
Definition setupFeeSharing (twitterHandle : string)
           (creatorFeeBps feeShareBps : number) (tokenMint : string)
  : M (PublicKey * string) :=
  feeShareWallet <- call (Call_getLaunchWalletForTwitterUsername twitterHandle)
                         (fun t => sdk_state_getLaunchWalletForTwitterUsername env t twitterHandle) ;;
  match feeShareWallet with
  | None => throw (Error ("Could not find wallet for @" ++ twitterHandle))
  | Some feeShareWallet =>
      let req := {| users := [ {| wallet := keypair.(publicKey); bps := creatorFeeBps |};
                               {| wallet := feeShareWallet; bps := feeShareBps |} ];
                    payer := keypair.(publicKey);
                    fs_baseMint := new_PublicKey tokenMint;
                    quoteMint := new_PublicKey wSOL |} in
      feeShareConfig <- call (Call_createFeeShareConfig req)
                             (fun t => sdk_config_createFeeShareConfig env t req) ;;
      match feeShareConfig.(transaction) with
      | Some tx => _ <- sendTransaction (sign tx [keypair]) ;;
                   ret (feeShareConfig.(configKey), feeShareWallet.(toBase58))
      | None => ret (feeShareConfig.(configKey), feeShareWallet.(toBase58))
      end
  end.

(** Step 3 of [launchToken] (lines 69-81): the configuration key and
    the partner wallet the launch goes on with. *)
Definition feeShareStep (params : TokenLaunchParams)
           (configResponse : ConfigResponse) (tokenInfo : TokenInfo)
  : M (PublicKey * option string) :=
  let skip := ret (configResponse.(configKey), None) in
  match params.(feeShareTwitter) with
  | Some handle =>
      if toBoolean handle then
        feeShareResult <- setupFeeSharing handle
                            (or_else params.(creatorFeeBps) (num 1000))
                            (or_else params.(feeShareBps) (num 9000))
                            tokenInfo.(tokenMint) ;;
        ret (fst feeShareResult, Some (snd feeShareResult))
      else skip
  | None => skip
  end.

(** [launchToken(params)] (lines 58-114).  The enclosing [try]/[catch]
    logs and rethrows the same error. *)
Definition launchToken (params : TokenLaunchParams) : M LaunchResult :=
  configResponse <- getOrCreateConfig ;;
  tokenInfo <- createTokenInfo params ;;
  step3 <- feeShareStep params configResponse tokenInfo ;;
  let finalConfigKey := fst step3 in
  let feeShareWallet := snd step3 in
  let req := {| metadataUrl := tokenInfo.(tokenMetadata);
                lq_tokenMint := new_PublicKey tokenInfo.(tokenMint);
                launchWallet := keypair.(publicKey);
                initialBuyLamports :=
                  mul (or_else params.(initialBuyAmountSol) (Fin (1 # 100)))
                      LAMPORTS_PER_SOL;
                lq_configKey := finalConfigKey |} in
  launchTx <- call (Call_createLaunchTransaction req)
                   (fun t => sdk_tokenLaunch_createLaunchTransaction env t req) ;;
  signature <- sendTransaction (sign launchTx [keypair]) ;;
  ret {| lr_tokenMint := tokenInfo.(tokenMint);
         lr_signature := signature;
         lr_metadataUrl := tokenInfo.(tokenMetadata);
         lr_bagsUrl := "https://bags.fm/" ++ tokenInfo.(tokenMint);
         lr_configKey := Some finalConfigKey.(toBase58);
         lr_feeShareWallet := feeShareWallet |}.

(** [getClaimablePositions()] (lines 274-279). *)
Definition getClaimablePositions : M (list ClaimablePosition) :=
  call (Call_getAllClaimablePositions keypair.(publicKey))
       (fun t => sdk_fee_getAllClaimablePositions env t keypair.(publicKey)).

(** The inner loop of [claimFees] (lines 309-314): [signatures] is the
    array filled so far. *)
Fixpoint claimTransactions (claimTxs : list VersionedTransaction)
         (signatures : list string) : M (list string) :=
  match claimTxs with
  | [] => ret signatures
  | tx :: rest =>
      sig <- sendTransaction (sign tx [keypair]) ;;
      claimTransactions rest (signatures ++ [sig])
  end.

(** The outer loop of [claimFees] (lines 301-315). *)
Fixpoint claimPositions (targetPositions : list ClaimablePosition)
         (signatures : list string) : M (list string) :=
  match targetPositions with
  | [] => ret signatures
  | position :: rest =>
      claimTxs <- call (Call_getClaimTransaction keypair.(publicKey) position)
                       (fun t => sdk_fee_getClaimTransaction env t keypair.(publicKey) position) ;;
      signatures' <- claimTransactions claimTxs signatures ;;
      claimPositions rest signatures'
  end.

(** The positions kept by the filter of lines 295-297. *)
Definition targetPositions (tokenMint : option string)
           (positions : list ClaimablePosition) : list ClaimablePosition :=
  match tokenMint with
  | Some mint =>
      if toBoolean mint
      then filter (fun p => String.eqb p.(baseMint) mint) positions
      else positions
  | None => positions
  end.

(** [claimFees(tokenMint?)] (lines 284-318). *)
Definition claimFees (tokenMint : option string) : M (list string) :=
  positions <- getClaimablePositions ;;
  if Nat.eqb (List.length positions) 0 then ret []
  else claimPositions (targetPositions tokenMint positions) [].

End BagsProtocol.

(* ================================================================== *)
(** ** Parameter objects with one field replaced *)
(* ================================================================== *)

Definition with_initialBuyAmountSol (p : TokenLaunchParams) (v : option number)
  : TokenLaunchParams :=
  {| name := p.(name); symbol := p.(symbol); description := p.(description);
     imageUrl := p.(imageUrl); imageFile := p.(imageFile);
     twitter := p.(twitter); telegram := p.(telegram); website := p.(website);
     initialBuyAmountSol := v;
     feeShareTwitter := p.(feeShareTwitter);
     creatorFeeBps := p.(creatorFeeBps); feeShareBps := p.(feeShareBps) |}.

Definition with_creatorFeeBps (p : TokenLaunchParams) (v : option number)
  : TokenLaunchParams :=
  {| name := p.(name); symbol := p.(symbol); description := p.(description);
     imageUrl := p.(imageUrl); imageFile := p.(imageFile);
     twitter := p.(twitter); telegram := p.(telegram); website := p.(website);
     initialBuyAmountSol := p.(initialBuyAmountSol);
     feeShareTwitter := p.(feeShareTwitter);
     creatorFeeBps := v; feeShareBps := p.(feeShareBps) |}.

Definition with_feeShareBps (p : TokenLaunchParams) (v : option number)
  : TokenLaunchParams :=
  {| name := p.(name); symbol := p.(symbol); description := p.(description);
     imageUrl := p.(imageUrl); imageFile := p.(imageFile);
     twitter := p.(twitter); telegram := p.(telegram); website := p.(website);
     initialBuyAmountSol := p.(initialBuyAmountSol);
     feeShareTwitter := p.(feeShareTwitter);
     creatorFeeBps := p.(creatorFeeBps); feeShareBps := v |}.

(* ================================================================== *)
(** ** Observations on traces *)
(* ================================================================== *)

(** The transactions handed to the network, in order. *)
Fixpoint submitted (l : trace) : list VersionedTransaction :=
  match l with
  | [] => []
  | Call_sendTransaction tx _ :: rest => tx :: submitted rest
  | _ :: rest => submitted rest
  end.

(** The addresses fetched, in order. *)
Fixpoint fetched (l : trace) : list string :=
  match l with
  | [] => []
  | Call_fetch url :: rest => url :: fetched rest
  | _ :: rest => fetched rest
  end.

(** The basis-point lists of the fee-share configurations requested,
    in order. *)
Fixpoint feeSplits (l : trace) : list (list number) :=
  match l with
  | [] => []
  | Call_createFeeShareConfig req :: rest => map bps req.(users) :: feeSplits rest
  | _ :: rest => feeSplits rest
  end.

(** [emits P m]: whatever the history, [m] only appends requests, and
    every request it appends satisfies [P]. *)
Definition emits {A} (P : event -> Prop) (m : M A) : Prop :=
  forall t, exists l, snd (m t) = t ++ l /\ Forall P l.

(** The part of the symbol rule that the specification words as
    "leading [$] stripped": all [$] at the front are dropped, none
    elsewhere. *)
Fixpoint strip_leading_dollars (s : string) : string :=
  match s with
  | String "$"%char rest => strip_leading_dollars rest
  | _ => s
  end.

Definition spec_normalized_symbol (env : Env) (s : string) : string :=
  strip_leading_dollars (toUpperCase env s).

Fixpoint has_dollar (s : string) : bool :=
  match s with
  | EmptyString => false
  | String c rest => if Ascii.eqb c "$" then true else has_dollar rest
  end.

(* ================================================================== *)
(** ** The interactive launcher (launcher.ts) *)
(* ================================================================== *)

(** The fee fields computed by [launchInteractive] (lines 76-78) from
    [creatorPercent], the result of [parseFloat] on the answer to the
    percentage prompt (NaN when the answer is not a number). *)
Definition interactiveFeeBps (creatorPercent : number) : number * number :=
  let creatorFeeBps := mul (or_else (Some creatorPercent) (num 10)) (num 100) in
  let feeShareBps := sub (num 10000) creatorFeeBps in
  (creatorFeeBps, feeShareBps).

(** The parameter object of lines 81-94, as far as fee sharing goes. *)
Definition with_interactiveFees (p : TokenLaunchParams) (handle : string)
           (creatorPercent : number) : TokenLaunchParams :=
  {| name := p.(name); symbol := p.(symbol); description := p.(description);
     imageUrl := p.(imageUrl); imageFile := p.(imageFile);
     twitter := p.(twitter); telegram := p.(telegram); website := p.(website);
     initialBuyAmountSol := p.(initialBuyAmountSol);
     feeShareTwitter := Some handle;
     creatorFeeBps := Some (fst (interactiveFeeBps creatorPercent));
     feeShareBps := Some (snd (interactiveFeeBps creatorPercent)) |}.

(* ================================================================== *)
(** ** Vocabulary of the statements *)
(* ================================================================== *)

Definition sendOptions : SendOptions := {| skipPreflight := true; maxRetries := 3 |}.

Definition confirmStrategy (latest : BlockhashInfo) (signature : string) : ConfirmStrategy :=
  {| cs_blockhash := latest.(blockhash);
     cs_lastValidBlockHeight := latest.(lastValidBlockHeight);
     cs_signature := signature |}.

(** The three requests of a submission that reaches the confirmation. *)
Definition submission (tx : VersionedTransaction) (latest : BlockhashInfo)
           (signature : string) : trace :=
  [ Call_getLatestBlockhash;
    Call_sendTransaction tx sendOptions;
    Call_confirmTransaction (confirmStrategy latest signature) "processed" ].

(** The outcome of a submission in terms of the [err] field. *)
Definition outcome (signature : string) (e : option TransactionError) : result string :=
  match e with
  | Some e =>
      if toBoolean e
      then Throw (Error ("Transaction failed: " ++ TransactionError_toString e))
      else Ok signature
  | None => Ok signature
  end.


(** The address a launch has to fetch, if any: the non-empty [imageUrl],
    or the default placeholder when there is neither an address nor a
    buffer. *)
Definition must_fetch (p : TokenLaunchParams) (url : string) : Prop :=
  (p.(imageUrl) = Some url /\ url <> "") \/
  (toBoolean p.(imageUrl) = false /\ p.(imageFile) = None /\ url = defaultImage).

(** The fee-share configuration request built at lines 196-210. *)
Definition feeShareRequest (keypair : Keypair) (feeShareWallet : PublicKey)
           (creatorFeeBps feeShareBps : number) (tokenMint : string)
  : FeeShareRequest :=
  {| users := [ {| wallet := keypair.(publicKey); bps := creatorFeeBps |};
                {| wallet := feeShareWallet; bps := feeShareBps |} ];
     payer := keypair.(publicKey);
     fs_baseMint := new_PublicKey tokenMint;
     quoteMint := new_PublicKey wSOL |}.

(** What the specification asks of a basis-point pair: no negative
    value and a sum of 10000. *)
Definition valid_split (creatorBps shareBps : number) : bool :=
  match creatorBps, shareBps with
  | Fin c, Fin s => Qle_bool 0 c && Qle_bool 0 s && Qeq_bool (c + s) (inject_Z 10000)
  | _, _ => false
  end.

(** [claimed_for env keypair Q t l]: among the requests [l] issued after
    the history [t], every claim-transaction request is for a position
    satisfying [Q], and every transaction sent is the signed form of a
    transaction that the protocol returned, earlier in [l], for such a
    position. *)
Definition claimed_for (env : Env) (keypair : Keypair)
           (Q : ClaimablePosition -> Prop) (t l : trace) : Prop :=
  (forall w position, In (Call_getClaimTransaction w position) l -> Q position) /\
  (forall tx opts,
      In (Call_sendTransaction tx opts) l ->
      exists position l0 l1 txs tx0,
        l = l0 ++ Call_getClaimTransaction keypair.(publicKey) position :: l1 /\
        Q position /\
        sdk_fee_getClaimTransaction env (t ++ l0) keypair.(publicKey) position = Ok txs /\
        In tx0 txs /\
        tx = sign tx0 [keypair]).

(** What the inner claim loop over the transactions [txs] may issue: no
    claim-transaction request, and sends of signed members of [txs]
    only. *)
Definition of_claim_set (keypair : Keypair) (txs : list VersionedTransaction)
           (ev : event) : Prop :=
  match ev with
  | Call_getClaimTransaction _ _ => False
  | Call_sendTransaction tx _ => exists tx0, In tx0 txs /\ tx = sign tx0 [keypair]
  | _ => True
  end.

(** The launch request built at lines 84-90, for the initial buy
    [amountSol] (in SOL) and the configuration key [key]. *)
Definition launchRequest (keypair : Keypair) (tokenInfo : TokenInfo)
           (key : PublicKey) (amountSol : number) : LaunchRequest :=
  {| metadataUrl := tokenInfo.(tokenMetadata);
     lq_tokenMint := new_PublicKey tokenInfo.(tokenMint);
     launchWallet := keypair.(publicKey);
     initialBuyLamports := mul amountSol LAMPORTS_PER_SOL;
     lq_configKey := key |}.



(** Requests other than the creation of a fee-share configuration. *)
Definition no_fee_share (ev : event) : Prop :=
  match ev with
  | Call_createFeeShareConfig _ => False
  | _ => True
  end.

(* ================================================================== *)
(** ** Scenarios *)
(* ================================================================== *)

Module Scenario.

Definition launcher : Keypair := {| publicKey := new_PublicKey "Creator" |}.

Definition createConfigTx : VersionedTransaction :=
  {| message := "create-config"; signatures := [] |}.
Definition feeShareTx : VersionedTransaction :=
  {| message := "create-fee-share"; signatures := [] |}.
Definition launchTx : VersionedTransaction :=
  {| message := "launch"; signatures := [] |}.
Definition claimA1 : VersionedTransaction :=
  {| message := "claim-a1"; signatures := [] |}.
Definition claimA2 : VersionedTransaction :=
  {| message := "claim-a2"; signatures := [] |}.
Definition claimB1 : VersionedTransaction :=
  {| message := "claim-b1"; signatures := [] |}.

Definition positionA : ClaimablePosition :=
  {| baseMint := "MintA";
     virtualPoolClaimableAmount := Some 5000%Z;
     dammPoolClaimableAmount := None |}.
Definition positionB : ClaimablePosition :=
  {| baseMint := "MintB";
     virtualPoolClaimableAmount := None;
     dammPoolClaimableAmount := Some 700%Z |}.

(** An instruction error as the RPC node reports it:
    [{ InstructionError: [0, { Custom: 1 }] }]. *)
Definition instructionError : TransactionError :=
  ErrObject [("InstructionError",
              JArray [JNumber 0; JObject [("Custom", JNumber 1)]])].

(** Another one: [{ InsufficientFundsForRent: { account_index: 2 } }]. *)
Definition rentError : TransactionError :=
  ErrObject [("InsufficientFundsForRent",
              JObject [("account_index", JNumber 2)])].

Definition notFoundPage : Blob :=
  {| blob_parts := [Byte.x3c; Byte.x68; Byte.x31; Byte.x3e]; blob_type := "text/html" |}.
Definition picture : Blob :=
  {| blob_parts := [Byte.x89; Byte.x50; Byte.x4e; Byte.x47]; blob_type := "image/png" |}.

(** Has the creation of the launcher's configuration been submitted? *)
Definition configSubmitted (t : trace) : bool :=
  existsb (fun tx => String.eqb tx.(message) "create-config") (submitted t).

(** A protocol and a network that answer every request.  The launch
    configuration exists once its creation has been submitted; the
    second claim transaction of [positionA] is rejected on chain; one
    address answers 404 and one host is unreachable. *)
Definition env : Env :=
  {| sdk_config_getOrCreateConfig := fun t _ =>
       Ok {| configKey := new_PublicKey "LaunchConfig";
             transaction := if configSubmitted t then None else Some createConfigTx |};
     sdk_config_createFeeShareConfig := fun _ _ =>
       Ok {| configKey := new_PublicKey "FeeShareConfig";
             transaction := Some feeShareTx |};
     sdk_tokenLaunch_createTokenInfoAndMetadata := fun _ _ =>
       Ok {| tokenMint := "Mint1"; tokenMetadata := "https://meta.example/1" |};
     sdk_tokenLaunch_createLaunchTransaction := fun _ _ => Ok launchTx;
     sdk_state_getLaunchWalletForTwitterUsername := fun _ handle =>
       Ok (if String.eqb handle "alice" then Some (new_PublicKey "AliceWallet") else None);
     sdk_fee_getAllClaimablePositions := fun _ _ => Ok [positionA; positionB];
     sdk_fee_getClaimTransaction := fun _ _ position =>
       Ok (if String.eqb position.(baseMint) "MintA" then [claimA1; claimA2]
           else if String.eqb position.(baseMint) "MintB" then [claimB1]
           else []);
     connection_getLatestBlockhash := fun _ =>
       Ok {| blockhash := "bh"; lastValidBlockHeight := 100 |};
     connection_sendTransaction := fun _ tx _ => Ok ("sig:" ++ tx.(message))%string;
     connection_confirmTransaction := fun _ strategy _ =>
       Ok {| err := if String.eqb strategy.(cs_signature) "sig:claim-a2"
                    then Some instructionError else None |};
     fetch := fun _ url =>
       if String.eqb url "https://down.example/logo.png"
       then Throw {| exn_name := "TypeError"; exn_message := "fetch failed" |}
       else if String.eqb url "https://example.com/missing.png"
       then Ok {| status := 404; blob := Ok notFoundPage |}
       else Ok {| status := 200; blob := Ok picture |};
     toUpperCase := ascii_toUpperCase |}.

(** The same, except that every transaction is rejected with
    [rentError]. *)
Definition rejecting (e : TransactionError) : Env :=
  {| sdk_config_getOrCreateConfig := sdk_config_getOrCreateConfig env;
     sdk_config_createFeeShareConfig := sdk_config_createFeeShareConfig env;
     sdk_tokenLaunch_createTokenInfoAndMetadata :=
       sdk_tokenLaunch_createTokenInfoAndMetadata env;
     sdk_tokenLaunch_createLaunchTransaction :=
       sdk_tokenLaunch_createLaunchTransaction env;
     sdk_state_getLaunchWalletForTwitterUsername :=
       sdk_state_getLaunchWalletForTwitterUsername env;
     sdk_fee_getAllClaimablePositions := sdk_fee_getAllClaimablePositions env;
     sdk_fee_getClaimTransaction := sdk_fee_getClaimTransaction env;
     connection_getLatestBlockhash := connection_getLatestBlockhash env;
     connection_sendTransaction := connection_sendTransaction env;
     connection_confirmTransaction := fun _ _ _ => Ok {| err := Some e |};
     fetch := fetch env;
     toUpperCase := toUpperCase env |}.


(** The same protocol for a wallet that has nothing to claim. *)
Definition nothing_to_claim : Env :=
  {| sdk_config_getOrCreateConfig := sdk_config_getOrCreateConfig env;
     sdk_config_createFeeShareConfig := sdk_config_createFeeShareConfig env;
     sdk_tokenLaunch_createTokenInfoAndMetadata :=
       sdk_tokenLaunch_createTokenInfoAndMetadata env;
     sdk_tokenLaunch_createLaunchTransaction :=
       sdk_tokenLaunch_createLaunchTransaction env;
     sdk_state_getLaunchWalletForTwitterUsername :=
       sdk_state_getLaunchWalletForTwitterUsername env;
     sdk_fee_getAllClaimablePositions := fun _ _ => Ok [];
     sdk_fee_getClaimTransaction := sdk_fee_getClaimTransaction env;
     connection_getLatestBlockhash := connection_getLatestBlockhash env;
     connection_sendTransaction := connection_sendTransaction env;
     connection_confirmTransaction := connection_confirmTransaction env;
     fetch := fetch env;
     toUpperCase := toUpperCase env |}.

Definition with_feeShareTwitter (p : TokenLaunchParams) (v : option string)
  : TokenLaunchParams :=
  {| name := p.(name); symbol := p.(symbol); description := p.(description);
     imageUrl := p.(imageUrl); imageFile := p.(imageFile);
     twitter := p.(twitter); telegram := p.(telegram); website := p.(website);
     initialBuyAmountSol := p.(initialBuyAmountSol);
     feeShareTwitter := v;
     creatorFeeBps := p.(creatorFeeBps); feeShareBps := p.(feeShareBps) |}.

Definition params : TokenLaunchParams :=
  {| name := "Test"; symbol := "$test"; description := "d";
     imageUrl := None; imageFile := None;
     twitter := None; telegram := None; website := None;
     initialBuyAmountSol := None;
     feeShareTwitter := Some "alice";
     creatorFeeBps := None; feeShareBps := None |}.

Definition with_imageUrl (p : TokenLaunchParams) (v : option string)
  : TokenLaunchParams :=
  {| name := p.(name); symbol := p.(symbol); description := p.(description);
     imageUrl := v; imageFile := p.(imageFile);
     twitter := p.(twitter); telegram := p.(telegram); website := p.(website);
     initialBuyAmountSol := p.(initialBuyAmountSol);
     feeShareTwitter := p.(feeShareTwitter);
     creatorFeeBps := p.(creatorFeeBps); feeShareBps := p.(feeShareBps) |}.

Definition with_symbol (p : TokenLaunchParams) (v : string)
  : TokenLaunchParams :=
  {| name := p.(name); symbol := v; description := p.(description);
     imageUrl := p.(imageUrl); imageFile := p.(imageFile);
     twitter := p.(twitter); telegram := p.(telegram); website := p.(website);
     initialBuyAmountSol := p.(initialBuyAmountSol);
     feeShareTwitter := p.(feeShareTwitter);
     creatorFeeBps := p.(creatorFeeBps); feeShareBps := p.(feeShareBps) |}.

Definition with_imageFile (p : TokenLaunchParams) (v : option Buffer)
  : TokenLaunchParams :=
  {| name := p.(name); symbol := p.(symbol); description := p.(description);
     imageUrl := p.(imageUrl); imageFile := v;
     twitter := p.(twitter); telegram := p.(telegram); website := p.(website);
     initialBuyAmountSol := p.(initialBuyAmountSol);
     feeShareTwitter := p.(feeShareTwitter);
     creatorFeeBps := p.(creatorFeeBps); feeShareBps := p.(feeShareBps) |}.

Definition logoUrl : string := "https://example.com/logo.png".
Definition missingUrl : string := "https://example.com/missing.png".
Definition downUrl : string := "https://down.example/logo.png".
Definition localFile : Buffer := [Byte.x01; Byte.x02].

End Scenario.

(* ================================================================== *)
(** ** Reasoning about traces *)
(* ================================================================== *)

Local Open Scope m_scope.

Lemma emits_ret {A} (P : event -> Prop) (a : A) : emits P (ret a).
Proof.
  intros t. exists []. rewrite app_nil_r. split; [reflexivity | constructor].
Qed.

Lemma emits_throw {A} (P : event -> Prop) (e : exn) : emits P (@throw A e).
Proof.
  intros t. exists []. rewrite app_nil_r. split; [reflexivity | constructor].
Qed.

Lemma emits_lift {A} (P : event -> Prop) (r : result A) : emits P (lift r).
Proof.
  intros t. exists []. rewrite app_nil_r. split; [reflexivity | constructor].
Qed.

Lemma emits_call {A} (P : event -> Prop) (ev : event) (oracle : trace -> result A) :
  P ev -> emits P (call ev oracle).
Proof.
  intros Hev t. exists [ev]. split; [reflexivity | ].
  constructor; [exact Hev | constructor].
Qed.

Lemma emits_bind {A B} (P : event -> Prop) (m : M A) (k : A -> M B) :
  emits P m -> (forall a, emits P (k a)) -> emits P (bind m k).
Proof.
  intros Hm Hk t. unfold bind.
  destruct (Hm t) as [l1 [E1 F1]].
  destruct (m t) as [[a | e] t1]; simpl in E1; subst t1.
  - destruct (Hk a (t ++ l1)) as [l2 [E2 F2]].
    exists (l1 ++ l2). rewrite E2, app_assoc. split; [reflexivity | ].
    apply Forall_app; split; assumption.
  - exists l1. split; [reflexivity | assumption].
Qed.

Lemma emits_weaken {A} (P Q : event -> Prop) (m : M A) :
  (forall ev, P ev -> Q ev) -> emits P m -> emits Q m.
Proof.
  intros HPQ Hm t. destruct (Hm t) as [l [E F]].
  exists l. split; [exact E | ].
  eapply Forall_impl; [exact HPQ | exact F].
Qed.

(** Running two computations in sequence, spelled out. *)
Lemma bind_ok {A B} (m : M A) (k : A -> M B) t a t' :
  m t = (Ok a, t') -> bind m k t = k a t'.
Proof. intros H. unfold bind. rewrite H. reflexivity. Qed.

Lemma bind_throw {A B} (m : M A) (k : A -> M B) t e t' :
  m t = (Throw e, t') -> bind m k t = (Throw e, t').
Proof. intros H. unfold bind. rewrite H. reflexivity. Qed.

Lemma bind_assoc {A B C} (m : M A) (f : A -> M B) (g : B -> M C) t :
  bind (bind m f) g t = bind m (fun a => bind (f a) g) t.
Proof.
  unfold bind. destruct (m t) as [[a | e] t1]; reflexivity.
Qed.

Lemma bind_ext {A B} (m : M A) (k1 k2 : A -> M B) t :
  (forall a t', k1 a t' = k2 a t') -> bind m k1 t = bind m k2 t.
Proof.
  intros H. unfold bind. destruct (m t) as [[a | e] t1]; [apply H | reflexivity].
Qed.


Lemma fetched_app (l1 l2 : trace) :
  fetched (l1 ++ l2) = fetched l1 ++ fetched l2.
Proof.
  induction l1 as [| ev l1 IH]; [reflexivity | ].
  destruct ev; simpl; rewrite IH; reflexivity.
Qed.

(** Decomposes a goal [emits P m] along the structure of [m]; what is
    left are the side conditions [P ev] of the requests. *)
Ltac emits_step :=
  match goal with
  | |- emits _ (bind _ _) => apply emits_bind; [ | intros ? ]
  | |- emits _ (ret _) => apply emits_ret
  | |- emits _ (throw _) => apply emits_throw
  | |- emits _ (lift _) => apply emits_lift
  | |- emits _ (call _ _) => apply emits_call
  | |- emits _ (match ?x with _ => _ end) => destruct x
  | |- emits _ (if ?x then _ else _) => destruct x
  | |- emits _ (let _ := _ in _) => cbv zeta
  end.

Section TraceFacts.

Variable env : Env.
Variable keypair : Keypair.
Variable P : event -> Prop.

Lemma emits_sendTransaction tx :
  P Call_getLatestBlockhash ->
  (forall opts, P (Call_sendTransaction tx opts)) ->
  (forall s c, P (Call_confirmTransaction s c)) ->
  emits P (sendTransaction env tx).
Proof.
  intros H1 H2 H3. unfold sendTransaction.
  repeat emits_step; auto.
Qed.

Lemma emits_getOrCreateConfig :
  P Call_getLatestBlockhash ->
  (forall tx opts, P (Call_sendTransaction tx opts)) ->
  (forall s c, P (Call_confirmTransaction s c)) ->
  (forall w, P (Call_getOrCreateConfig w)) ->
  emits P (getOrCreateConfig env keypair).
Proof.
  intros H1 H2 H3 H4. unfold getOrCreateConfig.
  repeat emits_step; auto using emits_sendTransaction.
Qed.

Lemma emits_resolveImage params :
  (forall url, P (Call_fetch url)) ->
  emits P (resolveImage env params).
Proof.
  intros H. unfold resolveImage, fetchBlob.
  repeat emits_step; auto.
Qed.

Lemma emits_createTokenInfo params :
  (forall url, P (Call_fetch url)) ->
  (forall req, P (Call_createTokenInfoAndMetadata req)) ->
  emits P (createTokenInfo env params).
Proof.
  intros H1 H2. unfold createTokenInfo.
  repeat emits_step; auto using emits_resolveImage.
Qed.

Lemma emits_setupFeeSharing handle c s mint :
  P Call_getLatestBlockhash ->
  (forall tx opts, P (Call_sendTransaction tx opts)) ->
  (forall st cm, P (Call_confirmTransaction st cm)) ->
  P (Call_getLaunchWalletForTwitterUsername handle) ->
  (forall w, P (Call_createFeeShareConfig
                  {| users := [ {| wallet := keypair.(publicKey); bps := c |};
                                {| wallet := w; bps := s |} ];
                     payer := keypair.(publicKey);
                     fs_baseMint := new_PublicKey mint;
                     quoteMint := new_PublicKey wSOL |})) ->
  emits P (setupFeeSharing env keypair handle c s mint).
Proof.
  intros H1 H2 H3 H4 H5. unfold setupFeeSharing.
  repeat emits_step; auto using emits_sendTransaction.
Qed.

End TraceFacts.

Section LaunchFacts.

Variable env : Env.
Variable keypair : Keypair.
Variable P : event -> Prop.
Variable params : TokenLaunchParams.

Hypothesis P_blockhash : P Call_getLatestBlockhash.
Hypothesis P_send : forall tx opts, P (Call_sendTransaction tx opts).
Hypothesis P_confirm : forall s c, P (Call_confirmTransaction s c).
Hypothesis P_config : forall w, P (Call_getOrCreateConfig w).
Hypothesis P_fetch : forall url, P (Call_fetch url).
Hypothesis P_info : forall req, P (Call_createTokenInfoAndMetadata req).
Hypothesis P_lookup : forall h, P (Call_getLaunchWalletForTwitterUsername h).
Hypothesis P_feeShare :
  forall req,
    map bps req.(users) = [ or_else params.(creatorFeeBps) (num 1000);
                            or_else params.(feeShareBps) (num 9000) ] ->
    P (Call_createFeeShareConfig req).
Hypothesis P_launch :
  forall req,
    req.(initialBuyLamports)
    = mul (or_else params.(initialBuyAmountSol) (Fin (1 # 100))) LAMPORTS_PER_SOL ->
    P (Call_createLaunchTransaction req).

Lemma emits_feeShareStep configResponse tokenInfo :
  emits P (feeShareStep env keypair params configResponse tokenInfo).
Proof.
  unfold feeShareStep. cbv zeta.
  destruct (feeShareTwitter params) as [handle | ]; [ | apply emits_ret].
  destruct (toBoolean handle); [ | apply emits_ret].
  apply emits_bind; [ | intros; apply emits_ret].
  apply emits_setupFeeSharing; auto.
Qed.

Lemma emits_launchToken : emits P (launchToken env keypair params).
Proof.
  unfold launchToken.
  apply emits_bind; [apply emits_getOrCreateConfig; auto | intros configResponse].
  apply emits_bind; [apply emits_createTokenInfo; auto | intros tokenInfo].
  apply emits_bind; [apply emits_feeShareStep | intros step3].
  cbv zeta.
  apply emits_bind; [apply emits_call; apply P_launch; reflexivity | intros launchTx].
  apply emits_bind; [apply emits_sendTransaction; auto | intros signature].
  apply emits_ret.
Qed.

End LaunchFacts.

(** What [emits] says about the basis-point lists. *)
Lemma feeSplits_Forall (Q : list number -> Prop) (l : trace) :
  Forall (fun ev => match ev with
                    | Call_createFeeShareConfig req => Q (map bps req.(users))
                    | _ => True
                    end) l ->
  Forall Q (feeSplits l).
Proof.
  induction 1 as [| ev l Hev _ IH]; [constructor | ].
  destruct ev; simpl; auto.
Qed.

(* ================================================================== *)
(** ** Truthiness and the [||] defaults *)
(* ================================================================== *)

Lemma or_else_truthy {A} `{ToBoolean A} (a : option A) (d : A) :
  toBoolean d = true -> toBoolean (or_else a d) = true.
Proof.
  intros Hd. unfold or_else.
  destruct a as [v | ]; [ | exact Hd].
  destruct (toBoolean v) eqn:Hv; [exact Hv | exact Hd].
Qed.

Lemma or_else_falsy {A} `{ToBoolean A} (v d : A) :
  toBoolean v = false -> or_else (Some v) d = or_else None d.
Proof. intros Hv. unfold or_else. rewrite Hv. reflexivity. Qed.


Lemma lamports_truthy (x : number) :
  toBoolean x = true -> toBoolean (mul x LAMPORTS_PER_SOL) = true.
Proof.
  destruct x as [q | | | ]; simpl; try reflexivity; try discriminate.
  unfold toBoolean, number_ToBoolean. intros Hq.
  apply negb_true_iff in Hq. apply negb_true_iff.
  apply Qeq_bool_neq in Hq.
  destruct (Qeq_bool (q * inject_Z 1000000000) 0) eqn:E; [ | reflexivity].
  apply Qeq_bool_iff in E. apply Qmult_integral in E.
  destruct E as [E | E]; [contradiction | discriminate E].
Qed.

(* ================================================================== *)
(** ** Symbol normalisation (line 164) *)
(* ================================================================== *)

Lemma upper_ascii_dollar (c : ascii) :
  Ascii.eqb (upper_ascii c) "$" = Ascii.eqb c "$".
Proof.
  destruct c as [[] [] [] [] [] [] [] []]; reflexivity.
Qed.

Lemma toUpperCase_app (s1 s2 : string) :
  ascii_toUpperCase (s1 ++ s2)
  = (ascii_toUpperCase s1 ++ ascii_toUpperCase s2)%string.
Proof.
  induction s1 as [| c s1 IH]; simpl; [reflexivity | rewrite IH; reflexivity].
Qed.

Lemma has_dollar_toUpperCase (s : string) :
  has_dollar (ascii_toUpperCase s) = has_dollar s.
Proof.
  induction s as [| c s IH]; simpl; [reflexivity | ].
  rewrite upper_ascii_dollar, IH. reflexivity.
Qed.

Lemma replace_dollar_cons (c : ascii) (s : string) :
  replace "$" "" (String c s)
  = if Ascii.eqb c "$" then s else String c (replace "$" "" s).
Proof.
  cbn [replace String.prefix String.length drop String.append].
  destruct (ascii_dec "$" c) as [E | N].
  - subst c. destruct s; reflexivity.
  - destruct (Ascii.eqb_spec c "$") as [E | _]; [congruence | reflexivity].
Qed.

Lemma replace_no_dollar (s : string) :
  has_dollar s = false -> replace "$" "" s = s.
Proof.
  induction s as [| c s IH]; [reflexivity | ].
  rewrite replace_dollar_cons. simpl.
  destruct (Ascii.eqb c "$"); [discriminate | ].
  intros H. rewrite (IH H). reflexivity.
Qed.

Lemma replace_first_dollar (pre post : string) :
  has_dollar pre = false ->
  replace "$" "" (pre ++ String "$" post) = (pre ++ post)%string.
Proof.
  induction pre as [| c pre IH]; intros H.
  - apply replace_dollar_cons.
  - change (String c pre ++ String "$" post)%string
      with (String c (pre ++ String "$" post)).
    rewrite replace_dollar_cons. simpl in H.
    destruct (Ascii.eqb c "$"); [discriminate | ].
    rewrite (IH H). reflexivity.
Qed.

(** C6, as amended.  The symbol submitted with the token metadata is the
    upper-case form of the input with its first [$] removed, wherever
    that [$] stands; later [$] characters are kept.  When the upper-case
    form has no [$] it is submitted unchanged.  For ASCII input, where
    upper-casing turns a-z into A-Z, this reads on the input itself, and
    ["$test"] is submitted as ["TEST"].  Every metadata request issued by
    [createTokenInfo] carries that symbol. *)
Theorem symbol_first_dollar_removed (env : Env) (p : TokenLaunchParams) :
  let upper := toUpperCase env p.(symbol) in
  (has_dollar upper = false ->
   forall image, (tokenInfoRequest env p image).(ti_symbol) = upper) /\
  (forall pre post image,
      has_dollar pre = false ->
      upper = (pre ++ String "$" post)%string ->
      (tokenInfoRequest env p image).(ti_symbol) = (pre ++ post)%string) /\
  (ascii_faithful env ->
   forall pre post image,
     is_ascii p.(symbol) = true ->
     has_dollar pre = false ->
     p.(symbol) = (pre ++ String "$" post)%string ->
     (tokenInfoRequest env p image).(ti_symbol)
     = (ascii_toUpperCase pre ++ ascii_toUpperCase post)%string) /\
  (ascii_faithful env ->
   p.(symbol) = "$test" ->
   forall image, (tokenInfoRequest env p image).(ti_symbol) = "TEST") /\
  emits (fun ev => match ev with
                   | Call_createTokenInfoAndMetadata req =>
                       exists image, req = tokenInfoRequest env p image
                   | _ => True
                   end)
        (createTokenInfo env p).
Proof.
  intros upper. subst upper.
  repeat match goal with |- _ /\ _ => split end.
  - intros H image. simpl. apply replace_no_dollar. exact H.
  - intros pre post image H E. simpl. rewrite E.
    apply replace_first_dollar. exact H.
  - intros Hf pre post image Ha H E. simpl.
    rewrite (Hf _ Ha), E, toUpperCase_app. simpl.
    apply replace_first_dollar. rewrite has_dollar_toUpperCase. exact H.
  - intros Hf E image. simpl. rewrite E, (Hf "$test" eq_refl). reflexivity.
  - unfold createTokenInfo.
    apply emits_bind; [apply emits_resolveImage; intros; exact I | intros image].
    cbv zeta. apply emits_call. exists image. reflexivity.
Qed.

Lemma scenario_ascii_faithful : ascii_faithful Scenario.env.
Proof. intros s _. reflexivity. Qed.

(** C6 at the symbol ["te$t$"]: the first [$] goes, the last one stays. *)
Lemma symbol_first_dollar_removed_witness :
  (tokenInfoRequest Scenario.env
     (Scenario.with_symbol Scenario.params "te$t$") Scenario.picture).(ti_symbol)
  = "TET$".
Proof.
  exact (proj1 (proj2 (proj2 (symbol_first_dollar_removed
                                Scenario.env
                                (Scenario.with_symbol Scenario.params "te$t$"))))
               scenario_ascii_faithful
               "te" "t$" Scenario.picture eq_refl eq_refl eq_refl).
Defined.

(** C6 as stated fails: the submitted symbol is not always the upper-case
    input without its leading [$] characters.  Of two leading [$] only
    one is removed, and a [$] inside the symbol is removed although it
    does not lead. *)
Lemma symbol_leading_dollars_counterexample :
  (tokenInfoRequest Scenario.env
     (Scenario.with_symbol Scenario.params "$$test") Scenario.picture).(ti_symbol)
  = "$TEST" /\
  spec_normalized_symbol Scenario.env "$$test" = "TEST" /\
  (tokenInfoRequest Scenario.env
     (Scenario.with_symbol Scenario.params "te$t") Scenario.picture).(ti_symbol)
  = "TET" /\
  spec_normalized_symbol Scenario.env "te$t" = "TE$T" /\
  (forall env, ascii_faithful env ->
   forall p image,
     p.(symbol) = "$$test" ->
     (tokenInfoRequest env p image).(ti_symbol) = "$TEST" /\
     spec_normalized_symbol env p.(symbol) = "TEST") /\
  ~ (forall env, ascii_faithful env ->
     forall p image,
       (tokenInfoRequest env p image).(ti_symbol)
       = spec_normalized_symbol env p.(symbol)).
Proof.
  repeat match goal with |- _ /\ _ => split end; try reflexivity.
  - intros env Hf p image E. unfold spec_normalized_symbol. simpl.
    rewrite E, (Hf "$$test" eq_refl). split; reflexivity.
  - intros H.
    specialize (H Scenario.env scenario_ascii_faithful
                  (Scenario.with_symbol Scenario.params "$$test") Scenario.picture).
    discriminate H.
Qed.

(* ================================================================== *)
(** ** The transaction submitter (lines 230-249) *)
(* ================================================================== *)

Section Submitter.

Variable env : Env.

(** One blockhash request, one send with preflight disabled and three
    retries, one confirmation at "processed" for the same blockhash;
    the signature is returned unless the confirmation reports a truthy
    error. *)
Lemma sendTransaction_confirmed tx t latest signature confirmation :
  connection_getLatestBlockhash env t = Ok latest ->
  connection_sendTransaction env (t ++ [Call_getLatestBlockhash]) tx sendOptions
  = Ok signature ->
  connection_confirmTransaction env
    (t ++ [Call_getLatestBlockhash; Call_sendTransaction tx sendOptions])
    (confirmStrategy latest signature) "processed" = Ok confirmation ->
  sendTransaction env tx t
  = (outcome signature confirmation.(err), t ++ submission tx latest signature).
Proof.
  intros H1 H2 H3. unfold sendTransaction, bind, call.
  rewrite H1. fold sendOptions. rewrite H2.
  fold (confirmStrategy latest signature).
  rewrite <- app_assoc. simpl app at 1. rewrite H3.
  rewrite <- app_assoc. simpl app.
  unfold outcome, submission.
  destruct (err confirmation) as [e | ]; [ | reflexivity].
  destruct (toBoolean e); reflexivity.
Qed.


End Submitter.

(** C5 at an object error.  When the confirmation reports an error that
    is an object (an instruction error, for instance), the submission
    throws and returns no signature, but the error thrown is
    ["Transaction failed: [object Object]"] whatever the object holds:
    the payload reported by the chain is not in it. *)
Theorem sendTransaction_object_error (env : Env) (tx : VersionedTransaction) (t : trace)
        (latest : BlockhashInfo) (signature : string) (fields : list (string * json)) :
  connection_getLatestBlockhash env t = Ok latest ->
  connection_sendTransaction env (t ++ [Call_getLatestBlockhash]) tx sendOptions
  = Ok signature ->
  connection_confirmTransaction env
    (t ++ [Call_getLatestBlockhash; Call_sendTransaction tx sendOptions])
    (confirmStrategy latest signature) "processed"
  = Ok {| err := Some (ErrObject fields) |} ->
  sendTransaction env tx t
  = (Throw (Error "Transaction failed: [object Object]"),
     t ++ submission tx latest signature).
Proof.
  intros H1 H2 H3.
  rewrite (sendTransaction_confirmed env tx t latest signature _ H1 H2 H3).
  reflexivity.
Qed.

(** Two different rejections, an instruction error and a rent error,
    reach the caller as the same error. *)
Lemma sendTransaction_object_error_witness :
  sendTransaction (Scenario.rejecting Scenario.instructionError) Scenario.launchTx []
  = (Throw (Error "Transaction failed: [object Object]"),
     [] ++ submission Scenario.launchTx
             {| blockhash := "bh"; lastValidBlockHeight := 100 |} "sig:launch") /\
  sendTransaction (Scenario.rejecting Scenario.rentError) Scenario.launchTx []
  = (Throw (Error "Transaction failed: [object Object]"),
     [] ++ submission Scenario.launchTx
             {| blockhash := "bh"; lastValidBlockHeight := 100 |} "sig:launch") /\
  Scenario.instructionError <> Scenario.rentError.
Proof.
  split; [ | split ].
  - eapply (sendTransaction_object_error
             (Scenario.rejecting Scenario.instructionError) Scenario.launchTx []
             {| blockhash := "bh"; lastValidBlockHeight := 100 |} "sig:launch");
      reflexivity.
  - eapply (sendTransaction_object_error
             (Scenario.rejecting Scenario.rentError) Scenario.launchTx []
             {| blockhash := "bh"; lastValidBlockHeight := 100 |} "sig:launch");
      reflexivity.
  - discriminate.
Defined.

(* ================================================================== *)
(** ** The launch configuration resolver (lines 119-137) *)
(* ================================================================== *)

Section Resolver.

Variable env : Env.
Variable keypair : Keypair.



End Resolver.




(* ================================================================== *)
(** ** Image resolution (lines 145-159) *)
(* ================================================================== *)

Lemma nonempty_truthy (s : string) : s <> "" -> toBoolean s = true.
Proof.
  intros H. unfold toBoolean, string_ToBoolean.
  apply negb_true_iff. apply String.eqb_neq. exact H.
Qed.

Section Image.

Variable env : Env.

Lemma fetchBlob_trace url t :
  snd (fetchBlob env url t) = t ++ [Call_fetch url].
Proof.
  unfold fetchBlob, bind, call, lift.
  destruct (fetch env t url); reflexivity.
Qed.

Lemma resolveImage_url p url :
  p.(imageUrl) = Some url -> url <> "" ->
  resolveImage env p = fetchBlob env url.
Proof.
  intros E N. unfold resolveImage. rewrite E, (nonempty_truthy url N). reflexivity.
Qed.

Lemma resolveImage_file p file :
  toBoolean p.(imageUrl) = false -> p.(imageFile) = Some file ->
  resolveImage env p = ret {| blob_parts := file; blob_type := "image/png" |}.
Proof.
  intros F E. unfold resolveImage. rewrite E.
  destruct (imageUrl p) as [url | ]; [ | reflexivity].
  change (toBoolean url = false) in F. rewrite F. reflexivity.
Qed.

Lemma resolveImage_default p :
  toBoolean p.(imageUrl) = false -> p.(imageFile) = None ->
  resolveImage env p = fetchBlob env defaultImage.
Proof.
  intros F E. unfold resolveImage. rewrite E.
  destruct (imageUrl p) as [url | ]; [ | reflexivity].
  change (toBoolean url = false) in F. rewrite F. reflexivity.
Qed.

(** The metadata request adds no fetch to those of the image step. *)
Lemma createTokenInfo_fetched p t l urls :
  snd (resolveImage env p t) = t ++ l -> fetched l = urls ->
  exists l', snd (createTokenInfo env p t) = t ++ l' /\ fetched l' = urls.
Proof.
  intros E F. unfold createTokenInfo, bind.
  destruct (resolveImage env p t) as [[image | e] t1]; simpl in E; subst t1.
  - exists (l ++ [Call_createTokenInfoAndMetadata (tokenInfoRequest env p image)]).
    unfold call. simpl. rewrite app_assoc. split; [reflexivity | ].
    rewrite fetched_app, F. simpl. apply app_nil_r.
  - exists l. split; [reflexivity | exact F].
Qed.

End Image.

(** C8.  The image is resolved by strict priority.  A remote address that
    is given (a non-empty [imageUrl]) is fetched, also when a local
    buffer is given as well, and nothing else is fetched.  Otherwise a
    given local buffer is wrapped as an ["image/png"] blob and handed to
    the metadata request without any fetch.  Otherwise the fixed default
    placeholder address is fetched, and nothing else. *)
Theorem image_resolution_priority (env : Env) (p : TokenLaunchParams) :
  (forall url, p.(imageUrl) = Some url -> url <> "" ->
     resolveImage env p = fetchBlob env url /\
     forall t, exists l, snd (createTokenInfo env p t) = t ++ l /\ fetched l = [url]) /\
  (forall file, toBoolean p.(imageUrl) = false -> p.(imageFile) = Some file ->
     let image := {| blob_parts := file; blob_type := "image/png" |} in
     resolveImage env p = ret image /\
     forall t, createTokenInfo env p t
               = (sdk_tokenLaunch_createTokenInfoAndMetadata env t (tokenInfoRequest env p image),
                  t ++ [Call_createTokenInfoAndMetadata (tokenInfoRequest env p image)])) /\
  (toBoolean p.(imageUrl) = false -> p.(imageFile) = None ->
     resolveImage env p = fetchBlob env defaultImage /\
     forall t, exists l, snd (createTokenInfo env p t) = t ++ l /\
                         fetched l = [defaultImage]).
Proof.
  split; [ | split ].
  - intros url E N. split; [apply resolveImage_url; assumption | ].
    intros t. apply (createTokenInfo_fetched env p t [Call_fetch url]).
    + rewrite (resolveImage_url env p url E N). apply fetchBlob_trace.
    + reflexivity.
  - intros file F E image. split; [apply resolveImage_file; assumption | ].
    intros t. unfold createTokenInfo.
    rewrite (resolveImage_file env p file F E). reflexivity.
  - intros F E. split; [apply resolveImage_default; assumption | ].
    intros t. apply (createTokenInfo_fetched env p t [Call_fetch defaultImage]).
    + rewrite (resolveImage_default env p F E). apply fetchBlob_trace.
    + reflexivity.
Qed.

(** C8 with both a remote address and a local buffer: only the address
    is fetched. *)
Lemma image_resolution_priority_witness :
  exists l,
    snd (createTokenInfo Scenario.env
           (Scenario.with_imageFile
              (Scenario.with_imageUrl Scenario.params (Some Scenario.logoUrl))
              (Some Scenario.localFile)) []) = [] ++ l /\
    fetched l = [Scenario.logoUrl].
Proof.
  assert (N : Scenario.logoUrl <> "") by discriminate.
  exact (proj2 (proj1 (image_resolution_priority Scenario.env
                         (Scenario.with_imageFile
                            (Scenario.with_imageUrl Scenario.params (Some Scenario.logoUrl))
                            (Some Scenario.localFile)))
                      Scenario.logoUrl eq_refl N) []).
Defined.

Lemma must_fetch_resolveImage (env : Env) (p : TokenLaunchParams) (url : string) :
  must_fetch p url -> resolveImage env p = fetchBlob env url.
Proof.
  intros [[E N] | [F [E ->]]].
  - apply resolveImage_url; assumption.
  - apply resolveImage_default; assumption.
Qed.

(** C4, as amended.  When the image has to be fetched from [url] and the
    fetch itself fails (the request is rejected, or the body cannot be
    read), [createTokenInfo] fails with that very error after this single
    fetch, no metadata request is issued, and [launchToken] fails with
    the same error.  A response is used whatever its status: its body
    becomes the image of the metadata request. *)
Theorem image_fetch_failure (env : Env) (keypair : Keypair) (p : TokenLaunchParams)
        (url : string) :
  must_fetch p url ->
  (forall t e,
      fetch env t url = Throw e ->
      createTokenInfo env p t = (Throw e, t ++ [Call_fetch url])) /\
  (forall t response e,
      fetch env t url = Ok response -> response.(blob) = Throw e ->
      createTokenInfo env p t = (Throw e, t ++ [Call_fetch url])) /\
  (forall t cfg t1 e,
      getOrCreateConfig env keypair t = (Ok cfg, t1) ->
      fetch env t1 url = Throw e ->
      launchToken env keypair p t = (Throw e, t1 ++ [Call_fetch url])) /\
  (forall t response image,
      fetch env t url = Ok response -> response.(blob) = Ok image ->
      createTokenInfo env p t
      = (sdk_tokenLaunch_createTokenInfoAndMetadata env (t ++ [Call_fetch url])
           (tokenInfoRequest env p image),
         t ++ [Call_fetch url;
               Call_createTokenInfoAndMetadata (tokenInfoRequest env p image)])) /\
  (forall t cfg t1 response e,
      getOrCreateConfig env keypair t = (Ok cfg, t1) ->
      fetch env t1 url = Ok response -> response.(blob) = Throw e ->
      launchToken env keypair p t = (Throw e, t1 ++ [Call_fetch url])).
Proof.
  intros Hurl.
  assert (Fail : forall t e, fetch env t url = Throw e ->
                             createTokenInfo env p t = (Throw e, t ++ [Call_fetch url])).
  { intros t e H. unfold createTokenInfo.
    rewrite (must_fetch_resolveImage env p url Hurl).
    unfold fetchBlob, bind, call. rewrite H. reflexivity. }
  repeat match goal with |- _ /\ _ => split end.
  - exact Fail.
  - intros t response e H B. unfold createTokenInfo.
    rewrite (must_fetch_resolveImage env p url Hurl).
    unfold fetchBlob, bind, call, lift. rewrite H, B. reflexivity.
  - intros t cfg t1 e Hcfg H. unfold launchToken.
    rewrite (bind_ok _ _ _ _ _ Hcfg).
    apply bind_throw. apply Fail. exact H.
  - intros t response image H B. unfold createTokenInfo.
    rewrite (must_fetch_resolveImage env p url Hurl).
    unfold fetchBlob, bind, call, lift. rewrite H, B.
    rewrite <- app_assoc. reflexivity.
  - intros t cfg t1 response e Hcfg H B. unfold launchToken.
    rewrite (bind_ok _ _ _ _ _ Hcfg).
    apply bind_throw. unfold createTokenInfo.
    rewrite (must_fetch_resolveImage env p url Hurl).
    unfold fetchBlob, bind, call, lift. rewrite H, B. reflexivity.
Qed.

(** C4 on an unreachable host: the launch fails with the error of the
    fetch, right after the fetch. *)
Lemma image_fetch_failure_witness :
  createTokenInfo Scenario.env
    (Scenario.with_imageUrl Scenario.params (Some Scenario.downUrl)) []
  = (Throw {| exn_name := "TypeError"; exn_message := "fetch failed" |},
     [] ++ [Call_fetch Scenario.downUrl]).
Proof.
  assert (H : must_fetch (Scenario.with_imageUrl Scenario.params (Some Scenario.downUrl))
                         Scenario.downUrl).
  { left. split; [reflexivity | discriminate]. }
  exact (proj1 (image_fetch_failure Scenario.env Scenario.launcher
                  (Scenario.with_imageUrl Scenario.params (Some Scenario.downUrl))
                  Scenario.downUrl H)
               [] {| exn_name := "TypeError"; exn_message := "fetch failed" |} eq_refl).
Defined.

(** C4 as stated fails: a fetch answered with status 404 is not a
    failure.  The body of the error page is uploaded as the image and the
    token information is created. *)
Lemma image_fetch_status_counterexample :
  let p := Scenario.with_imageUrl Scenario.params (Some Scenario.missingUrl) in
  must_fetch p Scenario.missingUrl /\
  fetch Scenario.env [] Scenario.missingUrl
  = Ok {| status := 404; blob := Ok Scenario.notFoundPage |} /\
  createTokenInfo Scenario.env p []
  = (Ok {| tokenMint := "Mint1"; tokenMetadata := "https://meta.example/1" |},
     [Call_fetch Scenario.missingUrl;
      Call_createTokenInfoAndMetadata (tokenInfoRequest Scenario.env p Scenario.notFoundPage)]) /\
  exists r, fst (launchToken Scenario.env Scenario.launcher p []) = Ok r.
Proof.
  split; [left; split; [reflexivity | discriminate] | ].
  split; [reflexivity | ].
  split; [reflexivity | ].
  eexists. vm_compute. reflexivity.
Qed.

(* ================================================================== *)
(** ** Fee-share setup (lines 178-225) *)
(* ================================================================== *)

Section FeeShareSetup.

Variable env : Env.
Variable keypair : Keypair.
Variables (handle : string) (creatorBps shareBps : number) (mint : string).
Variable t : trace.

Lemma setupFeeSharing_found w :
  sdk_state_getLaunchWalletForTwitterUsername env t handle = Ok (Some w) ->
  setupFeeSharing env keypair handle creatorBps shareBps mint t
  = match sdk_config_createFeeShareConfig env
            (t ++ [Call_getLaunchWalletForTwitterUsername handle])
            (feeShareRequest keypair w creatorBps shareBps mint) with
    | Ok cfg =>
        match cfg.(transaction) with
        | Some tx =>
            bind (sendTransaction env (sign tx [keypair]))
                 (fun _ => ret (cfg.(configKey), w.(toBase58)))
                 (t ++ [Call_getLaunchWalletForTwitterUsername handle;
                        Call_createFeeShareConfig
                          (feeShareRequest keypair w creatorBps shareBps mint)])
        | None =>
            (Ok (cfg.(configKey), w.(toBase58)),
             t ++ [Call_getLaunchWalletForTwitterUsername handle;
                   Call_createFeeShareConfig
                     (feeShareRequest keypair w creatorBps shareBps mint)])
        end
    | Throw e =>
        (Throw e,
         t ++ [Call_getLaunchWalletForTwitterUsername handle;
               Call_createFeeShareConfig
                 (feeShareRequest keypair w creatorBps shareBps mint)])
    end.
Proof.
  intros H. unfold setupFeeSharing, call. unfold bind at 1. rewrite H.
  fold (feeShareRequest keypair w creatorBps shareBps mint).
  unfold bind at 1.
  destruct (sdk_config_createFeeShareConfig env _ _) as [cfg | e];
    rewrite <- app_assoc; [ | reflexivity].
  destruct (transaction cfg); reflexivity.
Qed.

Lemma setupFeeSharing_missing :
  sdk_state_getLaunchWalletForTwitterUsername env t handle = Ok None ->
  setupFeeSharing env keypair handle creatorBps shareBps mint t
  = (Throw (Error ("Could not find wallet for @" ++ handle)),
     t ++ [Call_getLaunchWalletForTwitterUsername handle]).
Proof.
  intros H. unfold setupFeeSharing, call, bind. rewrite H. reflexivity.
Qed.

End FeeShareSetup.

(** C2, as amended.  The fee-share setup does not inspect the pair it is
    given.  For every pair, valid or not, it first looks the partner
    wallet up; when the wallet is found it requests the fee-share
    configuration with the two basis-point values exactly as supplied,
    and when the protocol answers with a transaction it signs and
    submits it.  The only failure of its own is the missing wallet. *)
Theorem setupFeeSharing_passes_pair (env : Env) (keypair : Keypair)
        (handle : string) (creatorBps shareBps : number) (mint : string) (t : trace) :
  let lookup := Call_getLaunchWalletForTwitterUsername handle in
  (forall w,
      sdk_state_getLaunchWalletForTwitterUsername env t handle = Ok (Some w) ->
      let req := feeShareRequest keypair w creatorBps shareBps mint in
      let t2 := t ++ [lookup; Call_createFeeShareConfig req] in
      setupFeeSharing env keypair handle creatorBps shareBps mint t
      = match sdk_config_createFeeShareConfig env (t ++ [lookup]) req with
        | Ok cfg =>
            match cfg.(transaction) with
            | Some tx =>
                bind (sendTransaction env (sign tx [keypair]))
                     (fun _ => ret (cfg.(configKey), w.(toBase58))) t2
            | None => (Ok (cfg.(configKey), w.(toBase58)), t2)
            end
        | Throw e => (Throw e, t2)
        end) /\
  (sdk_state_getLaunchWalletForTwitterUsername env t handle = Ok None ->
   setupFeeSharing env keypair handle creatorBps shareBps mint t
   = (Throw (Error ("Could not find wallet for @" ++ handle)), t ++ [lookup])) /\
  (exists l, snd (setupFeeSharing env keypair handle creatorBps shareBps mint t)
             = t ++ lookup :: l).
Proof.
  intros lookup. subst lookup.
  split; [apply setupFeeSharing_found | split; [apply setupFeeSharing_missing | ] ].
  destruct (sdk_state_getLaunchWalletForTwitterUsername env t handle)
    as [[w | ] | e] eqn:H.
  - rewrite (setupFeeSharing_found env keypair handle creatorBps shareBps mint t w H).
    destruct (sdk_config_createFeeShareConfig env _ _) as [cfg | e].
    + destruct (transaction cfg) as [tx | ].
      * assert (E : emits (fun _ => True)
                          (bind (sendTransaction env (sign tx [keypair]))
                                (fun _ => ret (cfg.(configKey), w.(toBase58))))).
        { apply emits_bind; [ | intros; apply emits_ret].
          apply emits_sendTransaction; intros; exact I. }
        destruct (E (t ++ [Call_getLaunchWalletForTwitterUsername handle;
                           Call_createFeeShareConfig
                             (feeShareRequest keypair w creatorBps shareBps mint)]))
          as [l [El _]].
        rewrite El, <- app_assoc. eexists. reflexivity.
      * eexists. reflexivity.
    + eexists. reflexivity.
  - rewrite (setupFeeSharing_missing env keypair handle creatorBps shareBps mint t H).
    exists []. reflexivity.
  - exists []. unfold setupFeeSharing, call, bind. rewrite H. reflexivity.
Qed.

(** C2 on a found wallet and the pair (6000, 6000): the configuration is
    requested with exactly that pair. *)
Lemma setupFeeSharing_passes_pair_witness :
  setupFeeSharing Scenario.env Scenario.launcher "alice" (num 6000) (num 6000) "Mint1" []
  = bind (sendTransaction Scenario.env (sign Scenario.feeShareTx [Scenario.launcher]))
         (fun _ => ret (new_PublicKey "FeeShareConfig", "AliceWallet"))
         ([] ++ [Call_getLaunchWalletForTwitterUsername "alice";
                 Call_createFeeShareConfig
                   (feeShareRequest Scenario.launcher (new_PublicKey "AliceWallet")
                                    (num 6000) (num 6000) "Mint1")]).
Proof.
  exact (proj1 (setupFeeSharing_passes_pair Scenario.env Scenario.launcher
                  "alice" (num 6000) (num 6000) "Mint1" [])
               (new_PublicKey "AliceWallet") eq_refl).
Defined.

(** C2 as stated fails: with the pair (6000, 6000), whose sum is 12000,
    and with the pair (-500, 10500), which has a negative value, the
    setup does not fail.  It looks the wallet up, requests the
    configuration with the pair and submits the transaction. *)
Lemma setupFeeSharing_invalid_split_counterexample :
  let run c s :=
    setupFeeSharing Scenario.env Scenario.launcher "alice" c s "Mint1" [] in
  let requests c s :=
    Call_getLaunchWalletForTwitterUsername "alice"
    :: Call_createFeeShareConfig
         (feeShareRequest Scenario.launcher (new_PublicKey "AliceWallet") c s "Mint1")
    :: submission (sign Scenario.feeShareTx [Scenario.launcher])
                  {| blockhash := "bh"; lastValidBlockHeight := 100 |}
                  "sig:create-fee-share" in
  valid_split (num 6000) (num 6000) = false /\
  run (num 6000) (num 6000)
  = (Ok (new_PublicKey "FeeShareConfig", "AliceWallet"), requests (num 6000) (num 6000)) /\
  valid_split (num (-500)) (num 10500) = false /\
  run (num (-500)) (num 10500)
  = (Ok (new_PublicKey "FeeShareConfig", "AliceWallet"),
     requests (num (-500)) (num 10500)).
Proof. repeat split. Qed.

(* ================================================================== *)
(** ** The claim loop (lines 284-318) *)
(* ================================================================== *)

Section ClaimLoop.

Variable env : Env.
Variable keypair : Keypair.

Lemma claimTransactions_app txs1 txs2 signatures :
  forall t,
    claimTransactions env keypair (txs1 ++ txs2) signatures t
    = bind (claimTransactions env keypair txs1 signatures)
           (claimTransactions env keypair txs2) t.
Proof.
  revert signatures.
  induction txs1 as [| tx txs1 IH]; intros signatures t; [reflexivity | ].
  simpl. rewrite bind_assoc. apply bind_ext. intros sig t'. apply IH.
Qed.

Lemma claimPositions_app ps1 ps2 signatures :
  forall t,
    claimPositions env keypair (ps1 ++ ps2) signatures t
    = bind (claimPositions env keypair ps1 signatures)
           (claimPositions env keypair ps2) t.
Proof.
  revert signatures.
  induction ps1 as [| position ps1 IH]; intros signatures t; [reflexivity | ].
  simpl. rewrite bind_assoc. apply bind_ext. intros claimTxs t'.
  rewrite bind_assoc. apply bind_ext. intros signatures' t''. apply IH.
Qed.

Lemma targetPositions_nil tokenMint : targetPositions tokenMint [] = [].
Proof.
  unfold targetPositions. destruct tokenMint as [mint | ]; [ | reflexivity].
  destruct (toBoolean mint); reflexivity.
Qed.

End ClaimLoop.

(** C3, as amended.  Let the claim loop have gone through the positions
    [before] and be at [position], whose claim transactions are
    [txs1 ++ tx :: txs2]; let the transactions [txs1] have been submitted
    and the submission of [tx] fail with [e].  Then [claimFees] ends
    there: its requests are those made up to the failed submission, so
    neither [txs2] nor any position of [after] is attempted, and the
    caller receives the error [e] alone, without the signatures
    collected so far. *)
Theorem claimFees_stops_at_failure (env : Env) (keypair : Keypair)
        (tokenMint : option string) (t : trace)
        (positions before after : list ClaimablePosition) (position : ClaimablePosition)
        (txs1 txs2 : list VersionedTransaction) (tx : VersionedTransaction)
        (signatures1 signatures2 : list string) (t1 t2 t3 : trace) (e : exn) :
  sdk_fee_getAllClaimablePositions env t keypair.(publicKey) = Ok positions ->
  targetPositions tokenMint positions = before ++ position :: after ->
  claimPositions env keypair before []
    (t ++ [Call_getAllClaimablePositions keypair.(publicKey)]) = (Ok signatures1, t1) ->
  sdk_fee_getClaimTransaction env t1 keypair.(publicKey) position
  = Ok (txs1 ++ tx :: txs2) ->
  claimTransactions env keypair txs1 signatures1
    (t1 ++ [Call_getClaimTransaction keypair.(publicKey) position])
  = (Ok signatures2, t2) ->
  sendTransaction env (sign tx [keypair]) t2 = (Throw e, t3) ->
  claimFees env keypair tokenMint t = (Throw e, t3).
Proof.
  intros Hall Htarget Hbefore Hclaim Htxs1 Hsend.
  unfold claimFees, getClaimablePositions, call. unfold bind at 1. rewrite Hall.
  destruct positions as [| p0 positions'].
  { rewrite targetPositions_nil in Htarget. destruct before; discriminate Htarget. }
  change (Nat.eqb (List.length (p0 :: positions')) 0) with false. cbv iota.
  rewrite Htarget, claimPositions_app.
  rewrite (bind_ok _ _ _ _ _ Hbefore).
  simpl claimPositions. unfold call. unfold bind at 1. rewrite Hclaim.
  apply bind_throw.
  rewrite claimTransactions_app.
  rewrite (bind_ok _ _ _ _ _ Htxs1).
  simpl claimTransactions. apply bind_throw. exact Hsend.
Qed.

(** C3 on two positions, the first with two claim transactions of which
    the second is rejected: the run ends with the rejection. *)
Lemma claimFees_stops_at_failure_witness :
  exists t3,
    claimFees Scenario.env Scenario.launcher None []
    = (Throw (Error "Transaction failed: [object Object]"), t3) /\
    submitted t3 = [ sign Scenario.claimA1 [Scenario.launcher];
                     sign Scenario.claimA2 [Scenario.launcher] ].
Proof.
  eexists. split.
  - eapply (claimFees_stops_at_failure Scenario.env Scenario.launcher None []
              [Scenario.positionA; Scenario.positionB]
              [] [Scenario.positionB] Scenario.positionA
              [Scenario.claimA1] [] Scenario.claimA2);
      vm_compute; reflexivity.
  - reflexivity.
Defined.

(** C3 as stated fails.  Of two claimable positions, the first has two
    claim transactions and the second of them is rejected on chain.
    [claimFees] then throws: the signature of the first claim is not
    handed to the caller, and the second position is never requested,
    although claiming it alone succeeds. *)
Lemma claimFees_partial_failure_counterexample :
  let run := claimFees Scenario.env Scenario.launcher None [] in
  fst run = Throw (Error "Transaction failed: [object Object]") /\
  submitted (snd run) = [ sign Scenario.claimA1 [Scenario.launcher];
                          sign Scenario.claimA2 [Scenario.launcher] ] /\
  ~ In (Call_getClaimTransaction Scenario.launcher.(publicKey) Scenario.positionB)
       (snd run) /\
  fst (claimFees Scenario.env Scenario.launcher (Some "MintB") [])
  = Ok ["sig:claim-b1"].
Proof.
  split; [reflexivity | ].
  split; [reflexivity | ].
  split; [ | reflexivity].
  vm_compute. intros H.
  repeat (destruct H as [H | H]; [discriminate H | ]).
  exact H.
Qed.

Section ClaimedFor.

Variable env : Env.
Variable keypair : Keypair.
Variable Q : ClaimablePosition -> Prop.

Lemma emits_claimTransactions txs :
  forall signatures,
    emits (of_claim_set keypair txs) (claimTransactions env keypair txs signatures).
Proof.
  assert (G : forall rest,
             (forall tx, In tx rest -> In tx txs) ->
             forall signatures,
               emits (of_claim_set keypair txs) (claimTransactions env keypair rest signatures)).
  { induction rest as [| tx rest IH]; intros Sub signatures; simpl.
    - apply emits_ret.
    - apply emits_bind.
      + apply emits_sendTransaction; try exact I.
        * intros opts. exists tx. split; [apply Sub; left | ]; reflexivity.
        * intros; exact I.
      + intros sig. apply IH. intros tx' H. apply Sub. right. exact H. }
  apply G. auto.
Qed.

Lemma claimed_for_nil t : claimed_for env keypair Q t [].
Proof. split; intros; contradiction. Qed.

Lemma claimed_for_app t l1 l2 :
  claimed_for env keypair Q t l1 ->
  claimed_for env keypair Q (t ++ l1) l2 ->
  claimed_for env keypair Q t (l1 ++ l2).
Proof.
  intros [G1 S1] [G2 S2]. split.
  - intros w position H. apply in_app_or in H. destruct H as [H | H]; eauto.
  - intros tx opts H. apply in_app_or in H. destruct H as [H | H].
    + destruct (S1 tx opts H) as [position [l0 [l1' [txs [tx0 [E [HQ [O [I0 Etx]]]]]]]]].
      exists position, l0, (l1' ++ l2), txs, tx0.
      repeat split; try assumption.
      rewrite E, <- app_assoc. reflexivity.
    + destruct (S2 tx opts H) as [position [l0 [l1' [txs [tx0 [E [HQ [O [I0 Etx]]]]]]]]].
      exists position, (l1 ++ l0), l1', txs, tx0.
      repeat split; try assumption.
      * rewrite E, <- app_assoc. reflexivity.
      * rewrite app_assoc. exact O.
Qed.

(** A request for a position satisfying [Q], followed by what the
    inner loop issues for the answer. *)
Lemma claimed_for_request t position txs l :
  Q position ->
  sdk_fee_getClaimTransaction env t keypair.(publicKey) position = Ok txs ->
  Forall (of_claim_set keypair txs) l ->
  claimed_for env keypair Q t
              (Call_getClaimTransaction keypair.(publicKey) position :: l).
Proof.
  intros HQ O F. rewrite Forall_forall in F. split.
  - intros w position' [H | H].
    + injection H as _ <-. exact HQ.
    + destruct (F _ H).
  - intros tx opts [H | H]; [discriminate H | ].
    destruct (F _ H) as [tx0 [I0 Etx]].
    exists position, [], l, txs, tx0.
    rewrite app_nil_r. repeat split; assumption.
Qed.

Lemma claimed_for_failed_request t position :
  Q position ->
  claimed_for env keypair Q t [Call_getClaimTransaction keypair.(publicKey) position].
Proof.
  intros HQ. split.
  - intros w position' [H | []]. injection H as _ <-. exact HQ.
  - intros tx opts [H | []]. discriminate H.
Qed.

Lemma claimPositions_claimed positions :
  Forall Q positions ->
  forall signatures t,
  exists l, snd (claimPositions env keypair positions signatures t) = t ++ l /\
            claimed_for env keypair Q t l.
Proof.
  induction 1 as [| position positions HQ _ IH]; intros signatures t.
  - exists []. rewrite app_nil_r. split; [reflexivity | apply claimed_for_nil].
  - simpl. unfold call. unfold bind at 1.
    destruct (sdk_fee_getClaimTransaction env t (publicKey keypair) position)
      as [txs | e] eqn:O.
    + destruct (emits_claimTransactions txs signatures
                  (t ++ [Call_getClaimTransaction (publicKey keypair) position]))
        as [l2 [E2 F2]].
      unfold bind.
      destruct (claimTransactions env keypair txs signatures _)
        as [[signatures' | e] t2]; simpl in E2; subst t2.
      * destruct (IH signatures'
                     ((t ++ [Call_getClaimTransaction (publicKey keypair) position]) ++ l2))
          as [l3 [E3 C3]].
        exists ((Call_getClaimTransaction (publicKey keypair) position :: l2) ++ l3).
        split.
        -- rewrite E3, <- !app_assoc. reflexivity.
        -- apply claimed_for_app.
           ++ apply (claimed_for_request t position txs l2); assumption.
           ++ rewrite <- app_assoc in C3. exact C3.
      * exists (Call_getClaimTransaction (publicKey keypair) position :: l2).
        split; [simpl; rewrite <- app_assoc; reflexivity | ].
        apply (claimed_for_request t position txs l2); assumption.
    + exists [Call_getClaimTransaction (publicKey keypair) position].
      split; [reflexivity | apply claimed_for_failed_request; exact HQ].
Qed.

End ClaimedFor.

(** C9.  With a token filter given (a non-empty mint), every claim
    transaction set that [claimFees] requests is for a position whose
    [baseMint] is the filter, and every transaction it sends is the
    signed form of a transaction the protocol returned for such a
    position: positions with another [baseMint] get neither a request nor
    a submission. *)
Theorem claimFees_filter (env : Env) (keypair : Keypair) (mint : string) (t : trace) :
  mint <> "" ->
  exists l,
    snd (claimFees env keypair (Some mint) t) = t ++ l /\
    claimed_for env keypair (fun position => position.(baseMint) = mint) t l.
Proof.
  intros Hmint.
  unfold claimFees, getClaimablePositions, call, bind.
  set (first := Call_getAllClaimablePositions keypair.(publicKey)).
  assert (Only : claimed_for env keypair (fun position => position.(baseMint) = mint)
                             t [first]).
  { split; intros ? ? [H | []]; discriminate H. }
  destruct (sdk_fee_getAllClaimablePositions env t (publicKey keypair))
    as [positions | e].
  2: { exists [first]. split; [reflexivity | exact Only]. }
  destruct (Nat.eqb (List.length positions) 0).
  { exists [first]. split; [reflexivity | exact Only]. }
  assert (Kept : Forall (fun position => position.(baseMint) = mint)
                        (targetPositions (Some mint) positions)).
  { unfold targetPositions. rewrite (nonempty_truthy mint Hmint).
    apply Forall_forall. intros position H.
    apply filter_In in H. destruct H as [_ H].
    apply String.eqb_eq. exact H. }
  destruct (claimPositions_claimed env keypair _ _ Kept [] (t ++ [first]))
    as [l [E C]].
  exists ([first] ++ l). split.
  - rewrite E, <- app_assoc. reflexivity.
  - apply claimed_for_app; assumption.
Qed.

(** C9 with the filter ["MintB"]: the position of ["MintA"] is left
    alone. *)
Lemma claimFees_filter_witness :
  exists l,
    snd (claimFees Scenario.env Scenario.launcher (Some "MintB") []) = [] ++ l /\
    claimed_for Scenario.env Scenario.launcher
                (fun position => position.(baseMint) = "MintB") [] l.
Proof.
  apply (claimFees_filter Scenario.env Scenario.launcher "MintB" []).
  discriminate.
Defined.

(* ================================================================== *)
(** ** Further properties of the orchestrator *)
(* ================================================================== *)

(** X1.  A submission whose three requests are answered returns the
    signature of the send when the confirmation carries no truthy error,
    and throws, returning no signature, when it carries one.  In both
    cases it has issued one blockhash request, one send with preflight
    disabled and three retries, and one confirmation at "processed" for
    the blockhash fetched first. *)
Theorem sendTransaction_outcome (env : Env) (tx : VersionedTransaction) (t : trace)
        (latest : BlockhashInfo) (signature : string) (confirmation : Confirmation) :
  connection_getLatestBlockhash env t = Ok latest ->
  connection_sendTransaction env (t ++ [Call_getLatestBlockhash]) tx sendOptions
  = Ok signature ->
  connection_confirmTransaction env
    (t ++ [Call_getLatestBlockhash; Call_sendTransaction tx sendOptions])
    (confirmStrategy latest signature) "processed" = Ok confirmation ->
  let run := sendTransaction env tx t in
  snd run = t ++ submission tx latest signature /\
  (toBoolean confirmation.(err) = false -> fst run = Ok signature) /\
  (toBoolean confirmation.(err) = true -> exists e, fst run = Throw e).
Proof.
  intros H1 H2 H3 run. subst run.
  rewrite (sendTransaction_confirmed env tx t latest signature confirmation H1 H2 H3).
  unfold outcome. simpl.
  split; [reflexivity | ].
  destruct (err confirmation) as [e | ].
  - change (toBoolean (Some e)) with (toBoolean e).
    destruct (toBoolean e); split; intros H; try discriminate H.
    + eexists. reflexivity.
    + reflexivity.
  - split; intros H; [reflexivity | discriminate H].
Qed.

(** X1 on a launch transaction that the chain accepts. *)
Lemma sendTransaction_outcome_witness :
  fst (sendTransaction Scenario.env Scenario.launchTx []) = Ok "sig:launch".
Proof.
  exact (proj1 (proj2 (sendTransaction_outcome Scenario.env Scenario.launchTx []
                         {| blockhash := "bh"; lastValidBlockHeight := 100 |}
                         "sig:launch" {| err := None |} eq_refl eq_refl eq_refl))
               eq_refl).
Defined.

(** X2.  When the wallet has no claimable position, [claimFees] returns
    the empty list of signatures after the single enumeration request,
    with or without a token filter. *)
Theorem claimFees_no_positions (env : Env) (keypair : Keypair)
        (tokenMint : option string) (t : trace) :
  sdk_fee_getAllClaimablePositions env t keypair.(publicKey) = Ok [] ->
  claimFees env keypair tokenMint t
  = (Ok [], t ++ [Call_getAllClaimablePositions keypair.(publicKey)]).
Proof.
  intros H. unfold claimFees, getClaimablePositions, call, bind.
  rewrite H. reflexivity.
Qed.

(** X2 on a protocol that reports no position. *)
Lemma claimFees_no_positions_witness :
  claimFees Scenario.nothing_to_claim Scenario.launcher (Some "MintA") []
  = (Ok [], [] ++ [Call_getAllClaimablePositions Scenario.launcher.(publicKey)]).
Proof.
  exact (claimFees_no_positions Scenario.nothing_to_claim Scenario.launcher
           (Some "MintA") [] eq_refl).
Defined.

(** X3.  When a partner handle is given and no wallet is registered for
    it, the launch fails with the error of the fee-share setup right
    after the wallet lookup: no launch transaction is requested or
    sent. *)
Theorem launchToken_wallet_not_found (env : Env) (keypair : Keypair)
        (p : TokenLaunchParams) (handle : string) (t t1 t2 : trace)
        (cfg : ConfigResponse) (info : TokenInfo) :
  p.(feeShareTwitter) = Some handle -> handle <> "" ->
  getOrCreateConfig env keypair t = (Ok cfg, t1) ->
  createTokenInfo env p t1 = (Ok info, t2) ->
  sdk_state_getLaunchWalletForTwitterUsername env t2 handle = Ok None ->
  launchToken env keypair p t
  = (Throw (Error ("Could not find wallet for @" ++ handle)),
     t2 ++ [Call_getLaunchWalletForTwitterUsername handle]).
Proof.
  intros Hh Hn Hcfg Hinfo Hnone. unfold launchToken.
  rewrite (bind_ok _ _ _ _ _ Hcfg), (bind_ok _ _ _ _ _ Hinfo).
  apply bind_throw. unfold feeShareStep. cbv zeta.
  rewrite Hh, (nonempty_truthy handle Hn).
  apply bind_throw.
  apply setupFeeSharing_missing. exact Hnone.
Qed.

(** X3 on a handle without a registered wallet. *)
Lemma launchToken_wallet_not_found_witness :
  exists t2,
    launchToken Scenario.env Scenario.launcher
      (Scenario.with_feeShareTwitter Scenario.params (Some "bob")) []
    = (Throw (Error "Could not find wallet for @bob"),
       t2 ++ [Call_getLaunchWalletForTwitterUsername "bob"]) /\
    submitted t2 = [sign Scenario.createConfigTx [Scenario.launcher]].
Proof.
  assert (N : "bob" <> "") by discriminate.
  eexists. split.
  - eapply (launchToken_wallet_not_found Scenario.env Scenario.launcher
              (Scenario.with_feeShareTwitter Scenario.params (Some "bob")) "bob" []);
      first [exact N | vm_compute; reflexivity].
  - reflexivity.
Defined.

(** X4.  Through the interactive launcher a creator share of 100 percent
    gives the fields 10000 and 0; the zero is then replaced by 9000, and
    the fee-share configuration is requested with 10000 and 9000. *)
Theorem interactive_full_share_split :
  interactiveFeeBps (num 100) = (Fin (10000 # 1), Fin (0 # 1)) /\
  feeSplits (snd (launchToken Scenario.env Scenario.launcher
                    (with_interactiveFees Scenario.params "alice" (num 100)) []))
  = [ [Fin (10000 # 1); num 9000] ].
Proof. split; vm_compute; reflexivity. Qed.

(* ================================================================== *)
(** ** The launch sequence, stage by stage (lines 58-114) *)
(* ================================================================== *)

Lemma bind_extends {A B} (P : event -> Prop) (m : M A) (k : A -> M B) t :
  (forall a, emits P (k a)) ->
  exists l, snd (bind m k t) = snd (m t) ++ l /\ Forall P l.
Proof.
  intros Hk. unfold bind. destruct (m t) as [[a | e] t1]; simpl.
  - apply Hk.
  - exists []. rewrite app_nil_r. split; [reflexivity | constructor].
Qed.



Section LaunchStages.

Variable env : Env.
Variable keypair : Keypair.
Variable p : TokenLaunchParams.

Lemma setupFeeSharing_trace handle c s mint t w :
  sdk_state_getLaunchWalletForTwitterUsername env t handle = Ok (Some w) ->
  exists l,
    snd (setupFeeSharing env keypair handle c s mint t)
    = t ++ Call_getLaunchWalletForTwitterUsername handle
        :: Call_createFeeShareConfig (feeShareRequest keypair w c s mint) :: l /\
    Forall no_fee_share l.
Proof.
  intros H. rewrite (setupFeeSharing_found env keypair handle c s mint t w H).
  destruct (sdk_config_createFeeShareConfig env _ _) as [cfg | e].
  - destruct (transaction cfg) as [tx | ].
    + assert (E : emits no_fee_share
                        (bind (sendTransaction env (sign tx [keypair]))
                              (fun _ => ret (cfg.(configKey), w.(toBase58))))).
      { apply emits_bind; [ | intros; apply emits_ret].
        apply emits_sendTransaction; intros; exact I. }
      destruct (E (t ++ [Call_getLaunchWalletForTwitterUsername handle;
                         Call_createFeeShareConfig
                           (feeShareRequest keypair w c s mint)]))
        as [l [El Fl]].
      exists l. rewrite El, <- app_assoc. split; [reflexivity | exact Fl].
    + exists []. split; [reflexivity | constructor].
  - exists []. split; [reflexivity | constructor].
Qed.


(** What follows step 3: the launch request and its submission. *)
Lemma emits_launch_tail info (step3 : PublicKey * option string) (amountSol : number) :
  emits no_fee_share
        (bind (call (Call_createLaunchTransaction
                       (launchRequest keypair info (fst step3) amountSol))
                    (fun t => sdk_tokenLaunch_createLaunchTransaction env t
                                (launchRequest keypair info (fst step3) amountSol)))
              (fun launchTx =>
                 bind (sendTransaction env (sign launchTx [keypair]))
                      (fun signature =>
                         ret {| lr_tokenMint := info.(tokenMint);
                                lr_signature := signature;
                                lr_metadataUrl := info.(tokenMetadata);
                                lr_bagsUrl := "https://bags.fm/" ++ info.(tokenMint);
                                lr_configKey := Some (fst step3).(toBase58);
                                lr_feeShareWallet := snd step3 |}))).
Proof.
  apply emits_bind; [apply emits_call; exact I | intros launchTx].
  apply emits_bind; [ | intros; apply emits_ret].
  apply emits_sendTransaction; intros; exact I.
Qed.

(** With a partner handle and a registered wallet, the launch requests
    the fee-share configuration right after the wallet lookup, with the
    pair of lines 75-76, and no other fee-share configuration later. *)
Lemma launchToken_fee_request handle w t t1 t2 cfg info :
  p.(feeShareTwitter) = Some handle -> handle <> "" ->
  getOrCreateConfig env keypair t = (Ok cfg, t1) ->
  createTokenInfo env p t1 = (Ok info, t2) ->
  sdk_state_getLaunchWalletForTwitterUsername env t2 handle = Ok (Some w) ->
  exists l,
    snd (launchToken env keypair p t)
    = t2 ++ Call_getLaunchWalletForTwitterUsername handle
         :: Call_createFeeShareConfig
              (feeShareRequest keypair w
                 (or_else p.(creatorFeeBps) (num 1000))
                 (or_else p.(feeShareBps) (num 9000))
                 info.(tokenMint)) :: l /\
    Forall no_fee_share l.
Proof.
  intros Hh Hn Hcfg Hinfo Hw. unfold launchToken.
  rewrite (bind_ok _ _ _ _ _ Hcfg), (bind_ok _ _ _ _ _ Hinfo).
  match goal with
  | |- exists l, snd (bind ?m ?k t2) = _ /\ _ =>
      destruct (bind_extends no_fee_share m k t2) as [l3 [E3 F3]]
  end.
  { intros step3. cbv zeta.
    apply (emits_launch_tail info step3
             (or_else p.(initialBuyAmountSol) (Fin (1 # 100)))). }
  rewrite E3. unfold feeShareStep. cbv zeta.
  rewrite Hh, (nonempty_truthy handle Hn).
  match goal with
  | |- exists l, snd (bind ?m ?k t2) ++ _ = _ /\ _ =>
      destruct (bind_extends no_fee_share m k t2) as [l2 [E2 F2]]
  end.
  { intros r. apply emits_ret. }
  rewrite E2.
  destruct (setupFeeSharing_trace handle
              (or_else p.(creatorFeeBps) (num 1000))
              (or_else p.(feeShareBps) (num 9000))
              info.(tokenMint) t2 w Hw) as [l1 [E1 F1]].
  rewrite E1. exists (l1 ++ l2 ++ l3). split.
  - rewrite <- !app_assoc. reflexivity.
  - repeat (apply Forall_app; split); assumption.
Qed.

(** Once step 3 has given the configuration key, the launch transaction
    is requested next, for the amount of line 88. *)
Lemma launchToken_launch_request t t1 t2 t3 cfg info step3 :
  getOrCreateConfig env keypair t = (Ok cfg, t1) ->
  createTokenInfo env p t1 = (Ok info, t2) ->
  feeShareStep env keypair p cfg info t2 = (Ok step3, t3) ->
  exists l,
    snd (launchToken env keypair p t)
    = t3 ++ Call_createLaunchTransaction
              (launchRequest keypair info (fst step3)
                 (or_else p.(initialBuyAmountSol) (Fin (1 # 100)))) :: l.
Proof.
  intros Hcfg Hinfo Hstep. unfold launchToken.
  rewrite (bind_ok _ _ _ _ _ Hcfg), (bind_ok _ _ _ _ _ Hinfo),
    (bind_ok _ _ _ _ _ Hstep).
  cbv zeta.
  match goal with
  | |- exists l, snd (bind ?m ?k t3) = _ =>
      destruct (bind_extends (fun _ => True) m k t3) as [l [E _]]
  end.
  { intros launchTx.
    apply emits_bind; [ | intros; apply emits_ret].
    apply emits_sendTransaction; intros; exact I. }
  exists l. rewrite E. unfold call. simpl. rewrite <- app_assoc. reflexivity.
Qed.

End LaunchStages.

(* ================================================================== *)
(** ** Fee split handed to the fee-share setup (lines 72-81) *)
(* ================================================================== *)





(* ================================================================== *)
(** ** A zero is an absent value (lines 75, 76 and 88) *)
(* ================================================================== *)

(** C10.  At [launchToken] a supplied 0 behaves exactly as an absent
    field: the whole run (result and requests) is the same for
    [initialBuyAmountSol: 0] and for no [initialBuyAmountSol], and
    likewise for [creatorFeeBps] and [feeShareBps].  What the launch then
    requests is the default: once the configuration key is settled, the
    launch transaction is requested for 0.01 SOL (10000000 lamports);
    with a partner handle and a registered wallet, the fee-share
    configuration is requested with 1000 for a creator share of 0 and
    with 9000 for a partner share of 0.  Consequently no launch request
    carries a zero initial buy and no fee-share request carries a zero
    share for either party. *)
Theorem launchToken_zero_is_absent (env : Env) (keypair : Keypair) (p : TokenLaunchParams) :
  (forall t, launchToken env keypair (with_initialBuyAmountSol p (Some (num 0))) t
             = launchToken env keypair (with_initialBuyAmountSol p None) t) /\
  (forall t, launchToken env keypair (with_creatorFeeBps p (Some (num 0))) t
             = launchToken env keypair (with_creatorFeeBps p None) t) /\
  (forall t, launchToken env keypair (with_feeShareBps p (Some (num 0))) t
             = launchToken env keypair (with_feeShareBps p None) t) /\
  (forall t t1 t2 t3 cfg info step3,
      getOrCreateConfig env keypair t = (Ok cfg, t1) ->
      createTokenInfo env p t1 = (Ok info, t2) ->
      feeShareStep env keypair p cfg info t2 = (Ok step3, t3) ->
      exists l,
        snd (launchToken env keypair (with_initialBuyAmountSol p (Some (num 0))) t)
        = t3 ++ Call_createLaunchTransaction
                  (launchRequest keypair info (fst step3) (Fin (1 # 100))) :: l) /\
  strict_eq (mul (Fin (1 # 100)) LAMPORTS_PER_SOL) (num 10000000) = true /\
  (forall handle w t t1 t2 cfg info,
      p.(feeShareTwitter) = Some handle -> handle <> "" ->
      getOrCreateConfig env keypair t = (Ok cfg, t1) ->
      createTokenInfo env p t1 = (Ok info, t2) ->
      sdk_state_getLaunchWalletForTwitterUsername env t2 handle = Ok (Some w) ->
      (exists l,
          snd (launchToken env keypair (with_creatorFeeBps p (Some (num 0))) t)
          = t2 ++ Call_getLaunchWalletForTwitterUsername handle
               :: Call_createFeeShareConfig
                    (feeShareRequest keypair w (num 1000)
                       (or_else p.(feeShareBps) (num 9000)) info.(tokenMint)) :: l) /\
      (exists l,
          snd (launchToken env keypair (with_feeShareBps p (Some (num 0))) t)
          = t2 ++ Call_getLaunchWalletForTwitterUsername handle
               :: Call_createFeeShareConfig
                    (feeShareRequest keypair w
                       (or_else p.(creatorFeeBps) (num 1000)) (num 9000)
                       info.(tokenMint)) :: l)) /\
  emits (fun ev => match ev with
                   | Call_createLaunchTransaction req =>
                       toBoolean req.(initialBuyLamports) = true
                   | Call_createFeeShareConfig req =>
                       Forall (fun b => toBoolean b = true) (map bps req.(users))
                   | _ => True
                   end)
        (launchToken env keypair p).
Proof.
  repeat match goal with |- _ /\ _ => split end; try reflexivity.
  - intros t t1 t2 t3 cfg info step3 Hcfg Hinfo Hstep.
    exact (launchToken_launch_request env keypair
             (with_initialBuyAmountSol p (Some (num 0)))
             t t1 t2 t3 cfg info step3 Hcfg Hinfo Hstep).
  - intros handle w t t1 t2 cfg info Hh Hn Hcfg Hinfo Hw. split.
    + destruct (launchToken_fee_request env keypair
                  (with_creatorFeeBps p (Some (num 0)))
                  handle w t t1 t2 cfg info Hh Hn Hcfg Hinfo Hw) as [l [E _]].
      exists l. exact E.
    + destruct (launchToken_fee_request env keypair
                  (with_feeShareBps p (Some (num 0)))
                  handle w t t1 t2 cfg info Hh Hn Hcfg Hinfo Hw) as [l [E _]].
      exists l. exact E.
  - apply emits_launchToken; try (intros; exact I).
    + intros req Hreq. rewrite Hreq.
      repeat constructor; apply or_else_truthy; reflexivity.
    + intros req Hreq. rewrite Hreq.
      apply lamports_truthy. apply or_else_truthy. reflexivity.
Qed.

(** C10 on a launch with a partner: with all three fields 0 the requests
    carry 0.01 SOL, 1000 and 9000. *)
Lemma launchToken_zero_is_absent_witness :
  let zeros := with_feeShareBps
                 (with_creatorFeeBps
                    (with_initialBuyAmountSol Scenario.params (Some (num 0)))
                    (Some (num 0)))
                 None in
  let t2 := snd (createTokenInfo Scenario.env Scenario.params
                   (snd (getOrCreateConfig Scenario.env Scenario.launcher []))) in
  (exists l,
      snd (launchToken Scenario.env Scenario.launcher
             (with_feeShareBps zeros (Some (num 0))) [])
      = t2 ++ Call_getLaunchWalletForTwitterUsername "alice"
           :: Call_createFeeShareConfig
                (feeShareRequest Scenario.launcher (new_PublicKey "AliceWallet")
                                 (num 1000) (num 9000) "Mint1") :: l) /\
  (exists l,
      snd (launchToken Scenario.env Scenario.launcher
             (with_initialBuyAmountSol zeros (Some (num 0))) [])
      = snd (feeShareStep Scenario.env Scenario.launcher zeros
               {| configKey := new_PublicKey "LaunchConfig";
                  transaction := Some (sign Scenario.createConfigTx [Scenario.launcher]) |}
               {| tokenMint := "Mint1"; tokenMetadata := "https://meta.example/1" |} t2)
        ++ Call_createLaunchTransaction
             (launchRequest Scenario.launcher
                {| tokenMint := "Mint1"; tokenMetadata := "https://meta.example/1" |}
                (new_PublicKey "FeeShareConfig") (Fin (1 # 100))) :: l).
Proof.
  intros zeros t2.
  assert (N : "alice" <> "") by discriminate.
  pose proof (launchToken_zero_is_absent Scenario.env Scenario.launcher zeros)
    as [_ [_ [_ [Buy [_ [Fee _]]]]]].
  split.
  - exact (proj2 (Fee "alice" (new_PublicKey "AliceWallet") []
                      (snd (getOrCreateConfig Scenario.env Scenario.launcher []))
                      t2
                      {| configKey := new_PublicKey "LaunchConfig";
                         transaction :=
                           Some (sign Scenario.createConfigTx [Scenario.launcher]) |}
                      {| tokenMint := "Mint1"; tokenMetadata := "https://meta.example/1" |}
                      eq_refl N eq_refl eq_refl eq_refl)).
  - exact (Buy []
               (snd (getOrCreateConfig Scenario.env Scenario.launcher []))
               t2
               (snd (feeShareStep Scenario.env Scenario.launcher zeros
                       {| configKey := new_PublicKey "LaunchConfig";
                          transaction :=
                            Some (sign Scenario.createConfigTx [Scenario.launcher]) |}
                       {| tokenMint := "Mint1"; tokenMetadata := "https://meta.example/1" |}
                       t2))
               {| configKey := new_PublicKey "LaunchConfig";
                  transaction := Some (sign Scenario.createConfigTx [Scenario.launcher]) |}
               {| tokenMint := "Mint1"; tokenMetadata := "https://meta.example/1" |}
               (new_PublicKey "FeeShareConfig", Some "AliceWallet")
               eq_refl eq_refl eq_refl).
Defined.
